(** * Street ASCII art: a shallow embedding of [street_art.py]

    The program reads one line describing a street (buildings, parks and
    empty lots), and prints the street inside a rectangular border.

    Conventions of the embedding.
    - A Python [int] is a [Z]; a Python [str] is a [string] whose characters
      are the code points 0..255.
    - A Python exception is a value [Raise e] of the type [result].
    - The four countdown helpers ([single_line], [fill_line], [empty_line],
      [border_line]) and [print_street] recurse on an integer that they
      decrement until it is [0]; on a negative integer they never reach
      their base case and the interpreter stops them with [RecursionError].
      They take a [fuel] argument, the number of nested calls that are
      still available, and raise [RecursionError] when a further call is
      needed and none is left.  The recursions over
      lists and strings ([create_street], [max_height], [street_line],
      [find_width], [change_spaces]) are structural and use no [fuel]:
      they always reach their base case, and the interpreter's limit on
      their depth (one call per token, element or character) is left
      out, so [fuel] says nothing about them.
    - [print] appends a line to the lines written so far; the prompt of
      [input] is not a printed line and is left out. *)

From Stdlib Require Import ZArith Lia List String Ascii Bool.
From Stdlib Require DecimalNat DecimalString.
Import ListNotations.

Open Scope string_scope.
Open Scope Z_scope.

(** ** The Python operations the program uses *)

Module Py.

Inductive exn : Type :=
| RecursionError
| ValueError
| IndexError
| ZeroDivisionError.

Inductive result (A : Type) : Type :=
| Ok (a : A)
| Raise (e : exn).

Arguments Ok {A} a.
Arguments Raise {A} e.

Definition bind {A B : Type} (m : result A) (k : A -> result B) : result B :=
  match m with
  | Ok a => k a
  | Raise e => Raise e
  end.

(** [str.isspace] on the code points 0..255. *)
Definition is_space (c : ascii) : bool :=
  let n := nat_of_ascii c in
  ((9 <=? n) && (n <=? 13) || (28 <=? n) && (n <=? 32)
   || (n =? 133) || (n =? 160))%nat.

(** The white space [int] skips around a numeral, on the code points
    0..255: 9..13 and 32, and 133 and 160, which it first turns into
    spaces.  The separators 28..31, on which [split] cuts, are not among
    them. *)
Definition is_int_space (c : ascii) : bool :=
  let n := nat_of_ascii c in
  ((9 <=? n) && (n <=? 13) || (n =? 32) || (n =? 133) || (n =? 160))%nat.

Definition is_digit (c : ascii) : bool :=
  let n := nat_of_ascii c in ((48 <=? n) && (n <=? 57))%nat.

Definition digit_value (c : ascii) : Z := Z.of_nat (nat_of_ascii c) - 48.

Fixpoint lstrip (s : string) : string :=
  match s with
  | EmptyString => EmptyString
  | String c rest => if is_int_space c then lstrip rest else s
  end.

Fixpoint rstrip (s : string) : string :=
  match s with
  | EmptyString => EmptyString
  | String c rest =>
      match rstrip rest with
      | EmptyString =>
          if is_int_space c then EmptyString else String c EmptyString
      | kept => String c kept
      end
  end.

Definition strip (s : string) : string := rstrip (lstrip s).

(** The digits of a decimal literal: single underscores are allowed
    between two digits. *)
Fixpoint int_digits (acc : Z) (s : string) : option Z :=
  match s with
  | EmptyString => Some acc
  | String c rest =>
      if is_digit c then int_digits (10 * acc + digit_value c) rest
      else if Ascii.eqb c "_" then
        match rest with
        | String d _ => if is_digit d then int_digits acc rest else None
        | EmptyString => None
        end
      else None
  end.

Definition int_body (s : string) : option Z :=
  match s with
  | String c _ => if is_digit c then int_digits 0 s else None
  | EmptyString => None
  end.

(** [int(s)]: surrounding white space, an optional sign, decimal digits.
    The interpreter's limit on the number of digits is left out. *)
Definition int (s : string) : result Z :=
  let t := strip s in
  let parsed :=
    match t with
    | String c u =>
        if Ascii.eqb c "-" then option_map Z.opp (int_body u)
        else if Ascii.eqb c "+" then int_body u
        else int_body t
    | EmptyString => None
    end in
  match parsed with
  | Some v => Ok v
  | None => Raise ValueError
  end.

(** [s.split()]: the maximal runs of characters that are not white space. *)
Fixpoint split_ws (cur : string) (s : string) : list string :=
  match s with
  | EmptyString =>
      match cur with EmptyString => [] | _ => [cur] end
  | String c rest =>
      if is_space c then
        match cur with
        | EmptyString => split_ws EmptyString rest
        | _ => cur :: split_ws EmptyString rest
        end
      else split_ws (cur ++ String c EmptyString) rest
  end.

Definition split (s : string) : list string := split_ws EmptyString s.

(** [s.split(sep)] for a one-character separator: every occurrence cuts. *)
Fixpoint split_on (sep : ascii) (cur : string) (s : string) : list string :=
  match s with
  | EmptyString => [cur]
  | String c rest =>
      if Ascii.eqb c sep then cur :: split_on sep EmptyString rest
      else split_on sep (cur ++ String c EmptyString) rest
  end.

Definition split_sep (s : string) (sep : ascii) : list string :=
  split_on sep EmptyString s.

(** [s[0]] *)
Definition first_char (s : string) : result ascii :=
  match s with
  | String c _ => Ok c
  | EmptyString => Raise IndexError
  end.

(** [l[i]] for [i >= 0] *)
Definition item {A : Type} (l : list A) (i : nat) : result A :=
  match nth_error l i with
  | Some a => Ok a
  | None => Raise IndexError
  end.

Fixpoint drop (n : nat) (s : string) : string :=
  match n, s with
  | S n', String _ rest => drop n' rest
  | _, _ => s
  end.

Fixpoint take (n : nat) (s : string) : string :=
  match n, s with
  | S n', String c rest => String c (take n' rest)
  | _, _ => EmptyString
  end.

(** [s[n:]] for [n >= 0] *)
Definition slice_from (s : string) (n : nat) : string := drop n s.

(** [s[0:stop]]; a negative [stop] counts from the end of [s]. *)
Definition slice_to (s : string) (stop : Z) : string :=
  if stop <? 0 then take (Z.to_nat (Z.of_nat (String.length s) + stop)) s
  else take (Z.to_nat stop) s.

Fixpoint repeat_str (n : nat) (s : string) : string :=
  match n with
  | O => EmptyString
  | S n' => s ++ repeat_str n' s
  end.

(** [s * n]; empty when [n <= 0]. *)
Definition str_mul (s : string) (n : Z) : string := repeat_str (Z.to_nat n) s.

Definition len (s : string) : Z := Z.of_nat (String.length s).

(** [a // b] and [a % b] on integers. *)
Definition floordiv (a b : Z) : result Z :=
  if b =? 0 then Raise ZeroDivisionError else Ok (a / b).

Definition modulo (a b : Z) : result Z :=
  if b =? 0 then Raise ZeroDivisionError else Ok (a mod b).

End Py.

Import Py.

Notation "x <- m ;; k" := (Py.bind m (fun x => k))
  (at level 61, m at next level, right associativity).

(** ** The three kinds of street element *)

Module Building.

(** [Building.__init__] and the getters [width], [height], [brick]
    (lines 17-36): the record and its projections. *)
Record t : Type := init { width : Z; height : Z; brick : string }.

(** [Building.single_line], lines 38-52. *)
Fixpoint single_line (fuel : nat) (width : Z) (filling : string)
  : result string :=
  if width =? 0 then Ok ""
  else
    match fuel with
    | O => Raise RecursionError
    | S fuel' =>
        rest <- single_line fuel' (width - 1) filling ;;
        Ok (filling ++ rest)
    end.

(** [Building.at_height], lines 54-66. *)
Definition at_height (fuel : nat) (self : t) (h : Z) : result string :=
  if height self <? h then single_line fuel (width self) " "
  else single_line fuel (width self) (brick self).

End Building.

Module Park.

(** [Park.__init__] (lines 76-85) stores the width and the foliage and sets
    the height to 5. *)
Record t : Type := mk { width : Z; fol : string; height : Z }.

Definition init (width : Z) (fol : string) : t := mk width fol 5.

(** [Park.fill_line], lines 96-110. *)
Fixpoint fill_line (fuel : nat) (width : Z) (filling : string)
  : result string :=
  if width =? 0 then Ok ""
  else
    match fuel with
    | O => Raise RecursionError
    | S fuel' =>
        rest <- fill_line fuel' (width - 1) filling ;;
        Ok (filling ++ rest)
    end.

(** [Park.tree_line], lines 113-127; [//] is the floor division [Z.div]. *)
Definition tree_line (fuel : nat) (width middle : Z) (filling : string)
  : result string :=
  let space_width := (width - middle) / 2 in
  space <- fill_line fuel space_width " " ;;
  tree_part <- fill_line fuel middle filling ;;
  Ok (space ++ tree_part ++ space).

(** [Park.at_height], lines 129-146. *)
Definition at_height (fuel : nat) (self : t) (h : Z) : result string :=
  if 5 <? h then fill_line fuel (width self) " "
  else if 2 >=? h then tree_line fuel (width self) 1 "|"
  else if h =? 3 then tree_line fuel (width self) 5 (fol self)
  else if h =? 4 then tree_line fuel (width self) 3 (fol self)
  else tree_line fuel (width self) 1 (fol self).

End Park.

Module EmptyLot.

(** [EmptyLot.__init__] (lines 157-166) stores the width and the trash and
    sets the height to 1. *)
Record t : Type := mk { width : Z; trash : string; height : Z }.

Definition init (width : Z) (trash : string) : t := mk width trash 1.

(** [EmptyLot.empty_line], lines 177-190. *)
Fixpoint empty_line (fuel : nat) (width : Z) : result string :=
  if width =? 0 then Ok ""
  else
    match fuel with
    | O => Raise RecursionError
    | S fuel' =>
        rest <- empty_line fuel' (width - 1) ;;
        Ok (" " ++ rest)
    end.

(** [EmptyLot.change_spaces], lines 192-207. *)
Fixpoint change_spaces (trash : string) : string :=
  match trash with
  | EmptyString => ""
  | String c rest =>
      if Ascii.eqb c "_" then " " ++ change_spaces rest
      else String c (change_spaces rest)
  end.

(** [EmptyLot.trash_to_width], lines 209-223. *)
Definition trash_to_width (self : t) (trash : string) : result string :=
  if len trash >=? width self then Ok (slice_to trash (width self))
  else
    times <- floordiv (width self) (len trash) ;;
    rem <- modulo (width self) (len trash) ;;
    Ok (str_mul trash times ++ slice_to trash rem).

(** [EmptyLot.at_height], lines 225-238. *)
Definition at_height (fuel : nat) (self : t) (h : Z) : result string :=
  if h >? 1 then empty_line fuel (width self)
  else trash_to_width self (change_spaces (trash self)).

End EmptyLot.

(** The objects a street holds; the methods [width], [height] and
    [at_height] are chosen by the class of the object. *)
Inductive element : Type :=
| ABuilding (b : Building.t)
| APark (p : Park.t)
| AnEmptyLot (e : EmptyLot.t).

Definition width (e : element) : Z :=
  match e with
  | ABuilding b => Building.width b
  | APark p => Park.width p
  | AnEmptyLot l => EmptyLot.width l
  end.

Definition height (e : element) : Z :=
  match e with
  | ABuilding b => Building.height b
  | APark p => Park.height p
  | AnEmptyLot l => EmptyLot.height l
  end.

Definition at_height (fuel : nat) (e : element) (h : Z) : result string :=
  match e with
  | ABuilding b => Building.at_height fuel b h
  | APark p => Park.at_height fuel p h
  | AnEmptyLot l => EmptyLot.at_height fuel l h
  end.

(** ** Parsing, measuring and printing a street *)

(** [create_street], lines 241-273.  The three tests on the first character
    follow one another as in the source; [append] adds at the end of the
    accumulator, which [main] starts empty. *)
Fixpoint create_street (parts : list string) (parts_list : list element)
  : result (list element) :=
  match parts with
  | [] => Ok parts_list
  | street_part :: rest =>
      c <- first_char street_part ;;
      parts_list <-
        (if Ascii.eqb c "b" then
           let parameters := split_sep (slice_from street_part 2) "," in
           p0 <- item parameters 0 ;;
           w <- int p0 ;;
           p1 <- item parameters 1 ;;
           h <- int p1 ;;
           p2 <- item parameters 2 ;;
           Ok (parts_list ++ [ABuilding (Building.init w h p2)])%list
         else Ok parts_list) ;;
      parts_list <-
        (if Ascii.eqb c "p" then
           let parameters := split_sep (slice_from street_part 2) "," in
           p0 <- item parameters 0 ;;
           w <- int p0 ;;
           p1 <- item parameters 1 ;;
           Ok (parts_list ++ [APark (Park.init w p1)])%list
         else Ok parts_list) ;;
      parts_list <-
        (if Ascii.eqb c "e" then
           let parameters := split_sep (slice_from street_part 2) "," in
           p0 <- item parameters 0 ;;
           w <- int p0 ;;
           p1 <- item parameters 1 ;;
           Ok (parts_list ++ [AnEmptyLot (EmptyLot.init w p1)])%list
         else Ok parts_list) ;;
      create_street rest parts_list
  end.

(** [max_height], lines 276-290. *)
Fixpoint max_height (street_parts : list element) (max_h : Z) : Z :=
  match street_parts with
  | [] => max_h
  | e :: rest =>
      max_height rest (if height e >? max_h then height e else max_h)
  end.

(** [street_line], lines 293-307. *)
Fixpoint street_line (fuel : nat) (street_parts : list element) (h : Z)
  : result string :=
  match street_parts with
  | [] => Ok ""
  | e :: rest =>
      here <- at_height fuel e h ;;
      there <- street_line fuel rest h ;;
      Ok (here ++ there)
  end.

Definition stdout : Type := list string.

Definition print (line : string) (out : stdout) : stdout :=
  (out ++ [line])%list.

(** [print_street], lines 311-321: the rows for [h], [h - 1], ..., [1]. *)
Fixpoint print_street (fuel : nat) (street_parts : list element) (h : Z)
  (out : stdout) : stdout * result unit :=
  if h =? 0 then (out, Ok tt)
  else
    match fuel with
    | O => (out, Raise RecursionError)
    | S fuel' =>
        match street_line fuel' street_parts h with
        | Raise e => (out, Raise e)
        | Ok line =>
            print_street fuel' street_parts (h - 1)
              (print ("|" ++ line ++ "|") out)
        end
    end.

(** [find_width], lines 324-336. *)
Fixpoint find_width (street_parts : list element) : Z :=
  match street_parts with
  | [] => 0
  | e :: rest => width e + find_width rest
  end.

(** [border_line], lines 339-353. *)
Fixpoint border_line (fuel : nat) (width : Z) (fill : string)
  : result string :=
  if width =? 0 then Ok ""
  else
    match fuel with
    | O => Raise RecursionError
    | S fuel' =>
        rest <- border_line fuel' (width - 1) fill ;;
        Ok (fill ++ rest)
    end.

(** [main], lines 356-371: [line] is what [input] returns; the result is the
    lines printed and how the run ended.  An exception leaves the lines
    printed before it. *)
Definition main (fuel : nat) (line : string) : stdout * result unit :=
  let parts := split line in
  match create_street parts [] with
  | Raise e => ([], Raise e)
  | Ok street_parts =>
      let max_h := max_height street_parts 0 in
      let width := find_width street_parts in
      match border_line fuel width "-" with
      | Raise e => ([], Raise e)
      | Ok top =>
          let out := print ("+" ++ top ++ "+") [] in
          match border_line fuel width " " with
          | Raise e => (out, Raise e)
          | Ok blank =>
              let out := print ("|" ++ blank ++ "|") out in
              match print_street fuel street_parts max_h out with
              | (out, Raise e) => (out, Raise e)
              | (out, Ok _) =>
                  match border_line fuel width "-" with
                  | Raise e => (out, Raise e)
                  | Ok bottom => (print ("+" ++ bottom ++ "+") out, Ok tt)
                  end
              end
          end
      end
  end.

(** ** Vocabulary of the statements *)

(** The object is one that the initialiser of its class returns. *)
Definition constructed (e : element) : Prop :=
  match e with
  | ABuilding b => True
  | APark p => p = Park.init (Park.width p) (Park.fol p)
  | AnEmptyLot l => l = EmptyLot.init (EmptyLot.width l) (EmptyLot.trash l)
  end.

(** The sizes the drawing rules assume: a building at least one column
    wide, a park of odd width at least five, a lot at least one column
    wide with some trash in it. *)
Definition valid_parameters (e : element) : bool :=
  match e with
  | ABuilding b => 1 <=? Building.width b
  | APark p => Z.odd (Park.width p) && (5 <=? Park.width p)
  | AnEmptyLot l =>
      (1 <=? EmptyLot.width l) && negb (EmptyLot.trash l =? "")%string
  end.

(** The brick of a building and the foliage of a park are one character. *)
Definition single_glyph (e : element) : bool :=
  match e with
  | ABuilding b => (String.length (Building.brick b) =? 1)%nat
  | APark p => (String.length (Park.fol p) =? 1)%nat
  | AnEmptyLot _ => true
  end.

(** [n] spaces *)
Definition spaces (n : Z) : string := str_mul " " n.

(** A band of [n] glyphs with [pad] spaces on either side. *)
Definition band (pad n : Z) (glyph : string) : string :=
  spaces pad ++ str_mul glyph n ++ spaces pad.

(** A content row as printed, between its two bars. *)
Definition bars (row : string) : string := "|" ++ row ++ "|".

Definition border (w : Z) : string := "+" ++ str_mul "-" w ++ "+".

(** The heights [n], [n - 1], ..., [1]. *)
Fixpoint countdown (n : nat) : list Z :=
  match n with
  | O => []
  | S k => Z.of_nat n :: countdown k
  end.

Fixpoint has_char (c : ascii) (s : string) : bool :=
  match s with
  | EmptyString => false
  | String d rest => Ascii.eqb d c || has_char c rest
  end.

(** The tokens [create_street] turns into an element. *)
Definition recognized (tok : string) : bool :=
  match tok with
  | String c _ => Ascii.eqb c "b" || Ascii.eqb c "p" || Ascii.eqb c "e"
  | EmptyString => false
  end.

Definition is_int (s : string) : bool :=
  match int s with
  | Ok _ => true
  | Raise _ => false
  end.

(** The tokens [create_street] gets past: a token is not empty, and when
    its first character names a class, the text from its third character
    on has the fields of that class, the numeric ones readable by [int]. *)
Definition well_formed (tok : string) : bool :=
  match tok with
  | EmptyString => false
  | String c _ =>
      let parameters := split_sep (slice_from tok 2) "," in
      if Ascii.eqb c "b" then
        is_int (nth 0 parameters "") && is_int (nth 1 parameters "")
        && (3 <=? List.length parameters)%nat
      else if Ascii.eqb c "p" || Ascii.eqb c "e" then
        is_int (nth 0 parameters "") && (2 <=? List.length parameters)%nat
      else true
  end.

(** The character that selects the class of an element. *)
Definition kind (e : element) : ascii :=
  match e with
  | ABuilding _ => "b"
  | APark _ => "p"
  | AnEmptyLot _ => "e"
  end.

(** The row of a lot at height 1: the pattern cut to the width, or whole
    copies of it and the start of one more. *)
Definition fitted (pattern : string) (w : Z) : string :=
  if len pattern >=? w then take (Z.to_nat w) pattern
  else str_mul pattern (w / len pattern)
       ++ take (Z.to_nat (w mod len pattern)) pattern.

(** The element a token is turned into: of the class the first character
    names, and the one the token gives when parsed alone. *)
Definition made_from (tok : string) (e : element) : Prop :=
  first_char tok = Ok (kind e) /\ create_street [tok] [] = Ok [e].

(** The canvas around the content rows [rows] of a street [w] wide. *)
Definition canvas (w : Z) (rows : list string) : list string :=
  (border w :: bars (spaces w) :: map bars rows ++ [border w])%list.

(** [str(w)] for [w >= 0]: the decimal digits of [w]. *)
Definition decimal (w : Z) : string :=
  DecimalString.NilEmpty.string_of_uint (Nat.to_uint (Z.to_nat w)).

(** ** Strings *)

Lemma length_append (a b : string) :
  String.length (a ++ b) = (String.length a + String.length b)%nat.
Proof.
  induction a as [|c a IH]; simpl; [reflexivity|].
  now rewrite IH.
Qed.

Lemma append_empty_r (a : string) : a ++ "" = a.
Proof.
  induction a as [|c a IH]; simpl; [reflexivity|].
  now rewrite IH.
Qed.

Lemma append_assoc (a b c : string) : (a ++ b) ++ c = a ++ b ++ c.
Proof.
  induction a as [|x a IH]; simpl; [reflexivity|].
  now rewrite IH.
Qed.

Lemma length_repeat_str (n : nat) (s : string) :
  String.length (repeat_str n s) = (n * String.length s)%nat.
Proof.
  induction n as [|n IH]; simpl; [reflexivity|].
  rewrite length_append, IH. reflexivity.
Qed.

Lemma len_str_mul (s : string) (n : Z) :
  0 <= n -> len (str_mul s n) = n * len s.
Proof.
  intros Hn. unfold len, str_mul. rewrite length_repeat_str. lia.
Qed.

Lemma len_append (a b : string) : len (a ++ b) = len a + len b.
Proof. unfold len. rewrite length_append. lia. Qed.

Lemma len_spaces (n : Z) : 0 <= n -> len (spaces n) = n.
Proof.
  intros Hn. unfold spaces. rewrite len_str_mul by lia.
  change (len " ") with 1. lia.
Qed.

Lemma length_take (n : nat) (s : string) :
  String.length (take n s) = Nat.min n (String.length s).
Proof.
  revert s. induction n as [|n IH]; intros [|c s]; simpl; try reflexivity.
  now rewrite IH.
Qed.

Lemma str_mul_succ (s : string) (n : Z) :
  0 < n -> str_mul s n = s ++ str_mul s (n - 1).
Proof.
  intros Hn. unfold str_mul.
  replace (Z.to_nat n) with (S (Z.to_nat (n - 1))) by lia.
  reflexivity.
Qed.

(** ** The countdown helpers *)

(** With a non-negative width and enough depth, a countdown helper returns
    the filling repeated; the four helpers share one proof. *)
Ltac countdown_returns fuel :=
  let IH := fresh "IH" in
  let w := fresh "w" in
  induction fuel as [|fuel IH]; intros w ? ?;
  simpl; destruct (Z.eqb_spec w 0) as [->|];
  [reflexivity | exfalso; lia | reflexivity
  | rewrite IH by lia; rewrite (str_mul_succ _ w) by lia; reflexivity].

(** On a negative width the base case is never met, whatever the depth. *)
Ltac countdown_diverges fuel :=
  let IH := fresh "IH" in
  let w := fresh "w" in
  induction fuel as [|fuel IH]; intros w ?;
  simpl; destruct (Z.eqb_spec w 0); try lia; [reflexivity|];
  rewrite IH by lia; reflexivity.

Lemma single_line_returns (c : string) (fuel : nat) :
  forall w, 0 <= w -> (Z.to_nat w <= fuel)%nat ->
            Building.single_line fuel w c = Ok (str_mul c w).
Proof. countdown_returns fuel. Qed.

Lemma fill_line_returns (c : string) (fuel : nat) :
  forall w, 0 <= w -> (Z.to_nat w <= fuel)%nat ->
            Park.fill_line fuel w c = Ok (str_mul c w).
Proof. countdown_returns fuel. Qed.

Lemma empty_line_returns (fuel : nat) :
  forall w, 0 <= w -> (Z.to_nat w <= fuel)%nat ->
            EmptyLot.empty_line fuel w = Ok (spaces w).
Proof. unfold spaces. countdown_returns fuel. Qed.

Lemma border_line_returns (c : string) (fuel : nat) :
  forall w, 0 <= w -> (Z.to_nat w <= fuel)%nat ->
            border_line fuel w c = Ok (str_mul c w).
Proof. countdown_returns fuel. Qed.

Lemma single_line_diverges (c : string) (fuel : nat) :
  forall w, w < 0 -> Building.single_line fuel w c = Raise RecursionError.
Proof. countdown_diverges fuel. Qed.


Lemma empty_line_diverges (fuel : nat) :
  forall w, w < 0 -> EmptyLot.empty_line fuel w = Raise RecursionError.
Proof. countdown_diverges fuel. Qed.

Lemma border_line_diverges (c : string) (fuel : nat) :
  forall w, w < 0 -> border_line fuel w c = Raise RecursionError.
Proof. countdown_diverges fuel. Qed.

(** ** Rows of one element *)

Lemma building_row (fuel : nat) (b : Building.t) (h : Z) :
  0 <= Building.width b -> (Z.to_nat (Building.width b) <= fuel)%nat ->
  Building.at_height fuel b h =
  Ok (if Building.height b <? h then spaces (Building.width b)
      else str_mul (Building.brick b) (Building.width b)).
Proof.
  intros Hw Hf. unfold Building.at_height, spaces.
  destruct (Building.height b <? h); now apply single_line_returns.
Qed.

Lemma tree_line_returns (fuel : nat) (w m : Z) (glyph : string) :
  0 <= m <= w -> (Z.to_nat w <= fuel)%nat ->
  Park.tree_line fuel w m glyph = Ok (band ((w - m) / 2) m glyph).
Proof.
  intros Hm Hf. unfold Park.tree_line, band, spaces.
  assert (0 <= (w - m) / 2 <= w) by (Z.div_mod_to_equations; lia).
  rewrite !fill_line_returns by lia. reflexivity.
Qed.

Lemma park_row (fuel : nat) (p : Park.t) (h : Z) :
  5 <= Park.width p -> (Z.to_nat (Park.width p) <= fuel)%nat ->
  Park.at_height fuel p h =
  let w := Park.width p in
  Ok (if 5 <? h then spaces w
      else if 2 >=? h then band ((w - 1) / 2) 1 "|"
      else if h =? 3 then band ((w - 5) / 2) 5 (Park.fol p)
      else if h =? 4 then band ((w - 3) / 2) 3 (Park.fol p)
      else band ((w - 1) / 2) 1 (Park.fol p)).
Proof.
  intros Hw Hf. unfold Park.at_height. cbv zeta.
  destruct (5 <? h); [apply fill_line_returns; lia|].
  destruct (2 >=? h); [apply tree_line_returns; lia|].
  destruct (h =? 3); [apply tree_line_returns; lia|].
  destruct (h =? 4); apply tree_line_returns; lia.
Qed.

Lemma len_band (pad n : Z) (glyph : string) :
  0 <= pad -> 0 <= n -> len (band pad n glyph) = 2 * pad + n * len glyph.
Proof.
  intros Hp Hn. unfold band, spaces.
  rewrite !len_append, !len_str_mul by lia.
  change (len " ") with 1. lia.
Qed.

Lemma length_change_spaces (trash : string) :
  String.length (EmptyLot.change_spaces trash) = String.length trash.
Proof.
  induction trash as [|c trash IH]; simpl; [reflexivity|].
  destruct (Ascii.eqb c "_"); simpl; now rewrite IH.
Qed.

Lemma change_spaces_no_underscore (trash : string) :
  has_char "_" (EmptyLot.change_spaces trash) = false.
Proof.
  induction trash as [|c trash IH]; simpl; [reflexivity|].
  destruct (Ascii.eqb c "_") eqn:Hc; simpl; rewrite ?Hc, IH; reflexivity.
Qed.

Lemma slice_to_nonneg (s : string) (stop : Z) :
  0 <= stop -> slice_to s stop = take (Z.to_nat stop) s.
Proof.
  intros Hs. unfold slice_to.
  destruct (Z.ltb_spec stop 0); [lia | reflexivity].
Qed.

Lemma trash_to_width_returns (l : EmptyLot.t) (pattern : string) :
  0 <= EmptyLot.width l -> 0 < len pattern ->
  EmptyLot.trash_to_width l pattern = Ok (fitted pattern (EmptyLot.width l)).
Proof.
  intros Hw Hp. unfold EmptyLot.trash_to_width, fitted.
  destruct (len pattern >=? EmptyLot.width l).
  - now rewrite slice_to_nonneg.
  - unfold floordiv, modulo.
    destruct (Z.eqb_spec (len pattern) 0); [lia|]. simpl.
    rewrite slice_to_nonneg; [reflexivity|].
    apply Z.mod_pos_bound; lia.
Qed.

Lemma len_fitted (pattern : string) (w : Z) :
  0 <= w -> 0 < len pattern -> len (fitted pattern w) = w.
Proof.
  intros Hw Hp. unfold fitted.
  destruct (Z.geb_spec (len pattern) w) as [Hge|Hlt].
  - unfold len in *. rewrite length_take. lia.
  - rewrite len_append, len_str_mul by (apply Z.div_pos; lia).
    pose proof (Z.mod_pos_bound w (len pattern) Hp) as Hm.
    pose proof (Z.div_mod w (len pattern) ltac:(lia)) as Hd.
    unfold len at 3. rewrite length_take. unfold len in *. lia.
Qed.

Lemma lot_row (fuel : nat) (l : EmptyLot.t) (h : Z) :
  0 <= EmptyLot.width l -> EmptyLot.trash l <> "" ->
  (Z.to_nat (EmptyLot.width l) <= fuel)%nat ->
  EmptyLot.at_height fuel l h =
  Ok (if h >? 1 then spaces (EmptyLot.width l)
      else fitted (EmptyLot.change_spaces (EmptyLot.trash l))
             (EmptyLot.width l)).
Proof.
  intros Hw Ht Hf. unfold EmptyLot.at_height.
  destruct (h >? 1); [now apply empty_line_returns|].
  apply trash_to_width_returns; [assumption|].
  unfold len. rewrite length_change_spaces.
  destruct (EmptyLot.trash l); [congruence | simpl; lia].
Qed.

(** ** Claims about single elements *)

(** C5. For a building at least one column wide and a row index [r >= 1]:
    when [r <= height] the row is the brick repeated [width] times, and when
    [r > height] it is [width] spaces. *)
Theorem building_rows (fuel : nat) (b : Building.t) (r : Z) :
  1 <= Building.width b -> 1 <= r ->
  (Z.to_nat (Building.width b) <= fuel)%nat ->
  (r <= Building.height b ->
   Building.at_height fuel b r
   = Ok (str_mul (Building.brick b) (Building.width b)))
  /\ (Building.height b < r ->
      Building.at_height fuel b r = Ok (spaces (Building.width b))).
Proof.
  intros Hw _ Hf. rewrite building_row by lia.
  destruct (Z.ltb_spec (Building.height b) r); split; intros; trivial; lia.
Qed.

Lemma building_rows_witness :
  let b := Building.init 4 3 "#" in
  1 <= Building.width b /\ 1 <= 2 /\ (Z.to_nat (Building.width b) <= 4)%nat
  /\ Building.at_height 4 b 2 = Ok "####"
  /\ Building.at_height 4 (Building.init 4 1 "#") 2 = Ok "    ".
Proof.
  simpl. split; [lia|]. split; [lia|]. split; [lia|]. split.
  - apply (building_rows 4 (Building.init 4 3 "#") 2); simpl; lia.
  - apply (building_rows 4 (Building.init 4 1 "#") 2); simpl; lia.
Defined.

(** C4, amended. For an element built with valid parameters, the brick of
    a building and the foliage of a park being one character, and a row
    index [r >= 1], [at_height r] returns a string of exactly [width]
    characters, which is all spaces when [r] is above the element's own
    height. *)
Theorem at_height_fills_width (fuel : nat) (e : element) (r : Z) :
  constructed e -> valid_parameters e = true -> single_glyph e = true ->
  1 <= r -> (Z.to_nat (width e) <= fuel)%nat ->
  exists row,
    at_height fuel e r = Ok row
    /\ len row = width e
    /\ (height e < r -> row = spaces (width e)).
Proof.
  intros Hc Hv Hg _ Hf. destruct e as [b|p|l]; simpl in *.
  - apply Z.leb_le in Hv. apply Nat.eqb_eq in Hg.
    rewrite building_row by lia. eexists. split; [reflexivity|].
    destruct (Z.ltb_spec (Building.height b) r); split; intros; trivial;
      try lia.
    + apply len_spaces. lia.
    + rewrite len_str_mul by lia. unfold len. rewrite Hg. lia.
  - apply andb_prop in Hv as [Hodd Hw]. apply Z.leb_le in Hw.
    apply Nat.eqb_eq in Hg. apply Z.odd_spec in Hodd as [k Hk].
    rewrite park_row by lia. cbv zeta. eexists. split; [reflexivity|].
    assert (Hh : Park.height p = 5) by (rewrite Hc; reflexivity).
    assert (Hbar : len "|" = 1) by reflexivity.
    assert (Hfol : len (Park.fol p) = 1) by (unfold len; rewrite Hg; lia).
    rewrite Hh.
    destruct (Z.ltb_spec 5 r);
      [split; [apply len_spaces; lia
              | reflexivity]|].
    split; [|lia].
    destruct (2 >=? r); [|destruct (r =? 3); [|destruct (r =? 4)]];
      rewrite len_band by (Z.div_mod_to_equations; lia);
      rewrite ?Hbar, ?Hfol; Z.div_mod_to_equations; lia.
  - apply andb_prop in Hv as [Hw Ht]. apply Z.leb_le in Hw.
    apply negb_true_iff, String.eqb_neq in Ht.
    rewrite lot_row by (assumption || lia). eexists. split; [reflexivity|].
    assert (Hh : EmptyLot.height l = 1) by (rewrite Hc; reflexivity).
    rewrite Hh.
    destruct (Z.gtb_spec r 1); split; intros; trivial; try lia.
    + apply len_spaces. lia.
    + apply len_fitted; [lia|].
      unfold len. rewrite length_change_spaces.
      destruct (EmptyLot.trash l); [congruence | simpl; lia].
Qed.

Lemma at_height_fills_width_witness :
  let e := APark (Park.init 7 "*") in
  constructed e /\ valid_parameters e = true /\ single_glyph e = true
  /\ 1 <= 4 /\ (Z.to_nat (width e) <= 7)%nat
  /\ exists row,
      at_height 7 e 4 = Ok row
      /\ len row = width e
      /\ (height e < 4 -> row = spaces (width e)).
Proof.
  simpl. do 2 (split; [reflexivity|]). split; [trivial|].
  do 2 (split; [lia|]).
  apply (at_height_fills_width 7 (APark (Park.init 7 "*")) 4);
    simpl; reflexivity || lia.
Defined.

(** C4 as stated fails: the token [b_4,3,##] builds a building four
    columns wide whose brick has two characters, and its row at height 1
    has eight characters; with the token [b_4,3,] the brick is empty and so
    is the row. *)
Lemma at_height_counterexample :
  let e := ABuilding (Building.init 4 3 "##") in
  create_street ["b_4,3,##"] [] = Ok [e]
  /\ constructed e
  /\ valid_parameters e = true
  /\ at_height 4 e 1 = Ok "########"
  /\ len "########" = 8
  /\ width e = 4
  /\ create_street ["b_4,3,"] [] = Ok [ABuilding (Building.init 4 3 "")]
  /\ at_height 4 (ABuilding (Building.init 4 3 "")) 1 = Ok "".
Proof. cbv zeta. repeat split. Qed.

Lemma street_line_single (fuel : nat) (e : element) (h : Z) (row : string) :
  at_height fuel e h = Ok row -> street_line fuel [e] h = Ok row.
Proof.
  intros Hrow. simpl. rewrite Hrow. simpl. now rewrite append_empty_r.
Qed.

Lemma print_street_step (fuel : nat) (street_parts : list element) (h : Z)
  (out : stdout) (row : string) :
  h <> 0 -> street_line fuel street_parts h = Ok row ->
  print_street (S fuel) street_parts h out
  = print_street fuel street_parts (h - 1) (print (bars row) out).
Proof.
  intros Hh Hrow. cbn [print_street].
  destruct (Z.eqb_spec h 0); [contradiction|].
  rewrite Hrow. reflexivity.
Qed.

Lemma print_street_done (fuel : nat) (street_parts : list element)
  (out : stdout) :
  print_street fuel street_parts 0 out = (out, Ok tt).
Proof. destruct fuel; reflexivity. Qed.

(** C6. A park of odd width at least five has height 5; printed alone, its
    rows from top to bottom are bands of 1, 3 and 5 copies of the foliage
    and then two bands of one trunk character ['|'], each band between two
    paddings of the same size that fill the row up to the width; a band of
    [n] copies of a foliage character is [n] characters wide. *)
Theorem park_shape (fuel : nat) (w : Z) (fol : string) :
  Z.odd w = true -> 5 <= w -> (Z.to_nat w + 5 <= fuel)%nat ->
  let p := Park.init w fol in
  Park.height p = 5
  /\ print_street fuel [APark p] (Park.height p) []
     = ([bars (band ((w - 1) / 2) 1 fol);
         bars (band ((w - 3) / 2) 3 fol);
         bars (band ((w - 5) / 2) 5 fol);
         bars (band ((w - 1) / 2) 1 "|");
         bars (band ((w - 1) / 2) 1 "|")], Ok tt)
  /\ 2 * ((w - 1) / 2) + 1 = w
  /\ 2 * ((w - 3) / 2) + 3 = w
  /\ 2 * ((w - 5) / 2) + 5 = w
  /\ (String.length fol = 1%nat ->
      forall n, 0 <= n -> len (str_mul fol n) = n).
Proof.
  intros Hodd Hw Hf p. apply Z.odd_spec in Hodd as [k Hk].
  split; [reflexivity|].
  split;
    [|repeat split; try (Z.div_mod_to_equations; lia);
      intros Hfol n Hn; rewrite len_str_mul by lia; unfold len;
      rewrite Hfol; lia].
  assert (Hrow : forall n h, (Z.to_nat w <= n)%nat ->
                 street_line n [APark p] h
                 = Ok (if 5 <? h then spaces w
                       else if 2 >=? h then band ((w - 1) / 2) 1 "|"
                       else if h =? 3 then band ((w - 5) / 2) 5 fol
                       else if h =? 4 then band ((w - 3) / 2) 3 fol
                       else band ((w - 1) / 2) 1 fol)).
  { intros n h Hn. apply street_line_single. simpl.
    rewrite park_row by (simpl; lia). reflexivity. }
  do 5 (destruct fuel as [|fuel]; [lia|]).
  change (Park.height p) with 5.
  do 5 (erewrite print_street_step; [|lia|apply Hrow; lia]).
  change (5 - 1 - 1 - 1 - 1 - 1) with 0. rewrite print_street_done.
  reflexivity.
Qed.

Lemma park_shape_witness :
  Z.odd 7 = true /\ 5 <= 7 /\ (Z.to_nat 7 + 5 <= 12)%nat
  /\ print_street 12 [APark (Park.init 7 "*")] 5 []
     = (["|   *   |"; "|  ***  |"; "| ***** |"; "|   |   |"; "|   |   |"],
        Ok tt).
Proof.
  split; [reflexivity|]. split; [lia|]. split; [simpl; lia|].
  apply (park_shape 12 7 "*"); [reflexivity | lia | simpl; lia].
Defined.

Lemma get_change_spaces (trash : string) :
  forall i,
    String.get i (EmptyLot.change_spaces trash)
    = option_map (fun c => if Ascii.eqb c "_" then " "%char else c)
        (String.get i trash).
Proof.
  induction trash as [|c trash IH]; intros i; [reflexivity|].
  cbn [EmptyLot.change_spaces].
  destruct (Ascii.eqb c "_") eqn:Hc; destruct i as [|i]; cbn;
    rewrite ?Hc, ?IH; reflexivity.
Qed.

(** C7. For a lot at least one column wide with a non-empty trash pattern,
    the normalized pattern is the trash with every underscore replaced by
    a space: it has the length of the trash, holds at each position the
    character of the trash, or a space where the trash has an underscore,
    and so holds no underscore; and the row at height 1 has exactly
    [width] characters: the first [width] characters of that pattern when
    it is long enough, and otherwise whole copies of the pattern followed
    by the start of one more copy. *)
Theorem lot_trash_row (fuel : nat) (w : Z) (trash : string) :
  1 <= w -> trash <> "" ->
  let l := EmptyLot.init w trash in
  let pattern := EmptyLot.change_spaces trash in
  String.length pattern = String.length trash
  /\ (forall i,
        String.get i pattern
        = option_map (fun c => if Ascii.eqb c "_" then " "%char else c)
            (String.get i trash))
  /\ has_char "_" pattern = false
  /\ exists row,
      EmptyLot.at_height fuel l 1 = Ok row
      /\ len row = w
      /\ (w <= len pattern -> row = take (Z.to_nat w) pattern)
      /\ (len pattern < w ->
          row = str_mul pattern (w / len pattern)
                ++ take (Z.to_nat (w mod len pattern)) pattern).
Proof.
  intros Hw Ht l pattern.
  split; [apply length_change_spaces|].
  split; [apply get_change_spaces|].
  split; [apply change_spaces_no_underscore|].
  assert (Hp : 0 < len pattern).
  { unfold len, pattern. rewrite length_change_spaces.
    destruct trash; [congruence | simpl; lia]. }
  exists (fitted pattern w). split; [|split; [|split]].
  - unfold EmptyLot.at_height. change (1 >? 1) with false. cbv iota.
    apply (trash_to_width_returns l pattern); [simpl; lia | assumption].
  - apply len_fitted; lia.
  - intros Hle. unfold fitted.
    destruct (Z.geb_spec (len pattern) w); [reflexivity | lia].
  - intros Hlt. unfold fitted.
    destruct (Z.geb_spec (len pattern) w); [lia | reflexivity].
Qed.

Lemma lot_trash_row_witness :
  1 <= 7 /\ "x_y" <> ""
  /\ String.length (EmptyLot.change_spaces "x_y") = String.length "x_y"
  /\ (forall i,
        String.get i (EmptyLot.change_spaces "x_y")
        = option_map (fun c => if Ascii.eqb c "_" then " "%char else c)
            (String.get i "x_y"))
  /\ has_char "_" (EmptyLot.change_spaces "x_y") = false
  /\ exists row,
      EmptyLot.at_height 0 (EmptyLot.init 7 "x_y") 1 = Ok row
      /\ len row = 7
      /\ (7 <= len "x y" -> row = take (Z.to_nat 7) "x y")
      /\ (len "x y" < 7 ->
          row = str_mul "x y" (7 / len "x y")
                ++ take (Z.to_nat (7 mod len "x y")) "x y").
Proof.
  split; [lia|]. split; [discriminate|].
  apply (lot_trash_row 0 7 "x_y"); [lia | discriminate].
Defined.

(** ** Rows of a street *)

Lemma valid_width (e : element) :
  valid_parameters e = true -> 1 <= width e.
Proof.
  destruct e as [b|p|l]; simpl; intros Hv.
  - now apply Z.leb_le.
  - apply andb_prop in Hv as [_ Hw]. apply Z.leb_le in Hw. lia.
  - apply andb_prop in Hv as [Hw _]. now apply Z.leb_le.
Qed.

Lemma find_width_nonneg (street : list element) :
  forallb valid_parameters street = true -> 0 <= find_width street.
Proof.
  induction street as [|e street IH]; simpl; intros Hv; [lia|].
  apply andb_prop in Hv as [He Hs]. apply valid_width in He.
  specialize (IH Hs). lia.
Qed.

Lemma max_height_lower (street : list element) :
  forall m, m <= max_height street m.
Proof.
  induction street as [|e street IH]; intros m; simpl; [lia|].
  destruct (Z.gtb_spec (height e) m);
    [specialize (IH (height e)) | specialize (IH m)]; lia.
Qed.

(** The row of a valid element does not depend on the depth available,
    once the depth exceeds the width. *)
Lemma at_height_valid (e : element) (h : Z) :
  valid_parameters e = true ->
  exists row, forall k, (Z.to_nat (width e) <= k)%nat ->
                        at_height k e h = Ok row.
Proof.
  intros Hv. pose proof (valid_width e Hv) as Hw.
  destruct e as [b|p|l]; simpl in *.
  - eexists. intros k Hk. now rewrite building_row by lia.
  - apply andb_prop in Hv as [_ H5]. apply Z.leb_le in H5.
    eexists. intros k Hk. now rewrite park_row by lia.
  - apply andb_prop in Hv as [_ Ht].
    apply negb_true_iff, String.eqb_neq in Ht.
    eexists. intros k Hk. now rewrite lot_row by (assumption || lia).
Qed.

Lemma street_line_valid (street : list element) (h : Z) :
  forallb valid_parameters street = true ->
  exists row, forall k, (Z.to_nat (find_width street) <= k)%nat ->
                        street_line k street h = Ok row.
Proof.
  induction street as [|e street IH]; simpl; intros Hv.
  - exists "". reflexivity.
  - apply andb_prop in Hv as [He Hs].
    pose proof (valid_width e He) as Hw.
    pose proof (find_width_nonneg street Hs) as Hws.
    destruct (at_height_valid e h He) as [here Hhere].
    destruct (IH Hs) as [there Hthere].
    exists (here ++ there). intros k Hk.
    rewrite Hhere, Hthere by lia. reflexivity.
Qed.

Lemma print_street_valid (street : list element) :
  forallb valid_parameters street = true ->
  forall (n fuel : nat) (out : stdout),
    (Z.to_nat (find_width street) + n <= fuel)%nat ->
    exists rows,
      print_street fuel street (Z.of_nat n) out
      = ((out ++ map bars rows)%list, Ok tt)
      /\ Forall2 (fun h row =>
                    forall k, (Z.to_nat (find_width street) <= k)%nat ->
                              street_line k street h = Ok row)
           (countdown n) rows.
Proof.
  intros Hv. induction n as [|n IH]; intros fuel out Hf.
  - exists []. change (Z.of_nat 0) with 0.
    rewrite print_street_done, app_nil_r. split; [reflexivity | constructor].
  - destruct fuel as [|fuel]; [lia|].
    destruct (street_line_valid street (Z.of_nat (S n)) Hv) as [row Hrow].
    rewrite (print_street_step _ _ _ _ row) by (lia || apply Hrow; lia).
    replace (Z.of_nat (S n) - 1) with (Z.of_nat n) by lia.
    destruct (IH fuel (print (bars row) out)) as [rows [Hrun Hrows]]; [lia|].
    exists (row :: rows). split.
    + rewrite Hrun. unfold print. now rewrite <- app_assoc.
    + cbn [countdown]. now constructor.
Qed.

Lemma length_countdown (n : nat) : List.length (countdown n) = n.
Proof.
  induction n as [|n IH]; [reflexivity|].
  cbn [countdown List.length]. now rewrite IH.
Qed.

(** *** Runs that complete *)

(** A countdown helper that returns was given a non-negative width and
    enough depth. *)
Ltac countdown_returned fuel :=
  let IH := fresh "IH" in
  let w := fresh "w" in
  let s := fresh "s" in
  let H := fresh "H" in
  induction fuel as [|fuel IH]; intros w s;
  simpl; destruct (Z.eqb_spec w 0) as [->|];
  [intros _; lia | discriminate | intros _; lia|];
  match goal with
  | |- context [Py.bind ?m _] =>
      destruct m eqn:H; [|discriminate]; apply IH in H; intros _; lia
  end.

Lemma single_line_returned (c : string) (fuel : nat) :
  forall w s, Building.single_line fuel w c = Ok s ->
              0 <= w /\ (Z.to_nat w <= fuel)%nat.
Proof. countdown_returned fuel. Qed.

Lemma fill_line_returned (c : string) (fuel : nat) :
  forall w s, Park.fill_line fuel w c = Ok s ->
              0 <= w /\ (Z.to_nat w <= fuel)%nat.
Proof. countdown_returned fuel. Qed.

Lemma empty_line_returned (fuel : nat) :
  forall w s, EmptyLot.empty_line fuel w = Ok s ->
              0 <= w /\ (Z.to_nat w <= fuel)%nat.
Proof. countdown_returned fuel. Qed.

Lemma border_line_returned (c : string) (fuel : nat) :
  forall w s, border_line fuel w c = Ok s ->
              0 <= w /\ (Z.to_nat w <= fuel)%nat.
Proof. countdown_returned fuel. Qed.

(** More depth does not change a row that was returned. *)
Lemma at_height_more_fuel (k k' : nat) (e : element) (h : Z) (row : string) :
  (k <= k')%nat -> at_height k e h = Ok row -> at_height k' e h = Ok row.
Proof.
  intros Hk. destruct e as [b|p|l]; simpl.
  - unfold Building.at_height.
    destruct (Building.height b <? h); intros Hrow;
      pose proof Hrow as Hret; apply single_line_returned in Hret;
      rewrite single_line_returns in Hrow |- * by lia; exact Hrow.
  - unfold Park.at_height, Park.tree_line.
    assert (Hfill : forall w c s, Park.fill_line k w c = Ok s ->
                                  Park.fill_line k' w c = Ok s).
    { intros w c s Hs. pose proof Hs as Hret.
      apply fill_line_returned in Hret.
      rewrite fill_line_returns in Hs |- * by lia. exact Hs. }
    assert (Htree : forall w m c,
               Py.bind (Park.fill_line k ((w - m) / 2) " ")
                 (fun space => Py.bind (Park.fill_line k m c)
                    (fun tree_part => Ok (space ++ tree_part ++ space)))
               = Ok row ->
               Py.bind (Park.fill_line k' ((w - m) / 2) " ")
                 (fun space => Py.bind (Park.fill_line k' m c)
                    (fun tree_part => Ok (space ++ tree_part ++ space)))
               = Ok row).
    { intros w m c.
      destruct (Park.fill_line k ((w - m) / 2) " ") as [space|] eqn:Hs;
        [|discriminate].
      destruct (Park.fill_line k m c) as [tree_part|] eqn:Ht;
        [|discriminate].
      apply Hfill in Hs, Ht. now rewrite Hs, Ht. }
    destruct (5 <? h); [apply Hfill|].
    destruct (2 >=? h); [apply Htree|].
    destruct (h =? 3); [apply Htree|].
    destruct (h =? 4); apply Htree.
  - unfold EmptyLot.at_height.
    destruct (h >? 1); [|trivial]. intros Hrow.
    pose proof Hrow as Hret. apply empty_line_returned in Hret.
    rewrite empty_line_returns in Hrow |- * by lia. exact Hrow.
Qed.

Lemma street_line_more_fuel (k k' : nat) (street : list element) (h : Z) :
  (k <= k')%nat ->
  forall row, street_line k street h = Ok row ->
              street_line k' street h = Ok row.
Proof.
  intros Hk. induction street as [|e street IH]; intros row; [trivial|].
  cbn [street_line].
  destruct (at_height k e h) as [here|] eqn:Hhere; [|discriminate].
  destruct (street_line k street h) as [there|] eqn:Hthere; [|discriminate].
  rewrite (at_height_more_fuel k k' e h here Hk Hhere), (IH there eq_refl).
  trivial.
Qed.

(** What [print_street] has printed when it returns. *)
Lemma print_street_returned (street : list element) (fuel : nat) :
  forall (n : nat) (out out' : stdout) (u : unit),
    print_street fuel street (Z.of_nat n) out = (out', Ok u) ->
    exists rows,
      out' = (out ++ map bars rows)%list
      /\ Forall2 (fun h row => street_line fuel street h = Ok row)
           (countdown n) rows.
Proof.
  assert (Hbase : forall k n out out' (u : unit),
             Z.of_nat n = 0 -> (out, Ok tt) = (out', Ok u) ->
             exists rows,
               out' = (out ++ map bars rows)%list
               /\ Forall2 (fun h row => street_line k street h = Ok row)
                    (countdown n) rows).
  { intros k n out out' u Hn [= <-]. exists []. rewrite app_nil_r.
    replace n with O by lia. split; [reflexivity | constructor]. }
  induction fuel as [|fuel IH]; intros n out out' u; cbn [print_street];
    destruct (Z.eqb_spec (Z.of_nat n) 0) as [Hn|Hn];
    [now apply Hbase | discriminate | now apply Hbase |].
  destruct (street_line fuel street (Z.of_nat n)) as [row|] eqn:Hrow;
    [|discriminate].
  destruct n as [|n]; [lia|].
  replace (Z.of_nat (S n) - 1) with (Z.of_nat n) by lia.
  intros Hrun. apply IH in Hrun as [rows [-> Hrows]].
  exists (row :: rows). split.
  - unfold print. now rewrite <- app_assoc.
  - cbn [countdown]. constructor.
    + revert Hrow. apply street_line_more_fuel. lia.
    + revert Hrows. apply Forall2_impl. intros h r.
      apply street_line_more_fuel. lia.
Qed.

(** ** Claims about the printed canvas *)

(** C3, amended. For every parsed street on which the program runs to its
    end, the output is, in order: the top border, one blank padding row,
    exactly [max_height] content rows, each a composed row between two
    bars, for the heights [max_height] down to [1], and the bottom border,
    which is the top border again.  The program runs to its end whenever
    every element has valid parameters. *)
Theorem main_prints_canvas (fuel : nat) (line : string)
  (street : list element) :
  create_street (split line) [] = Ok street ->
  let total_width := find_width street in
  let max_h := max_height street 0 in
  (forallb valid_parameters street = true ->
   (Z.to_nat total_width + Z.to_nat max_h <= fuel)%nat ->
   snd (main fuel line) = Ok tt)
  /\ (snd (main fuel line) = Ok tt ->
      exists rows,
        fst (main fuel line) = canvas total_width rows
        /\ Z.of_nat (List.length rows) = max_h
        /\ Forall2 (fun h row => street_line fuel street h = Ok row)
             (countdown (Z.to_nat max_h)) rows).
Proof.
  intros Hparse total_width max_h.
  pose proof (max_height_lower street 0) as Hh. fold max_h in Hh.
  unfold main. rewrite Hparse. fold total_width. fold max_h. split.
  - intros Hv Hf.
    pose proof (find_width_nonneg street Hv) as Hw. fold total_width in Hw.
    destruct (print_street_valid street Hv (Z.to_nat max_h) fuel
                [border total_width; bars (spaces total_width)])
      as [rows [Hrun _]]; [exact Hf|].
    rewrite Z2Nat.id in Hrun by exact Hh.
    rewrite !border_line_returns by lia.
    change (print ("|" ++ str_mul " " total_width ++ "|")
              (print ("+" ++ str_mul "-" total_width ++ "+") []))
      with [border total_width; bars (spaces total_width)].
    rewrite Hrun. reflexivity.
  - destruct (border_line fuel total_width "-") as [top|] eqn:Htop;
      [|discriminate].
    pose proof Htop as Hret. apply border_line_returned in Hret.
    rewrite border_line_returns in Htop |- * by lia.
    injection Htop as <-.
    change (print ("|" ++ str_mul " " total_width ++ "|")
              (print ("+" ++ str_mul "-" total_width ++ "+") []))
      with [border total_width; bars (spaces total_width)].
    destruct (print_street fuel street max_h
                [border total_width; bars (spaces total_width)])
      as [out [u|err]] eqn:Hrun; [|discriminate].
    intros _. rewrite <- (Z2Nat.id max_h) in Hrun by exact Hh.
    apply print_street_returned in Hrun as [rows [-> Hrows]].
    exists rows. split; [|split].
    + cbn [fst]. unfold canvas, print. cbn [app]. reflexivity.
    + apply Forall2_length in Hrows. rewrite length_countdown in Hrows.
      rewrite <- Hrows. now apply Z2Nat.id.
    + exact Hrows.
Qed.

Lemma main_prints_canvas_witness :
  let line := "b_2,1,# p_5,*" in
  let street := [ABuilding (Building.init 2 1 "#"); APark (Park.init 5 "*")] in
  create_street (split line) [] = Ok street
  /\ forallb valid_parameters street = true
  /\ (Z.to_nat (find_width street) + Z.to_nat (max_height street 0) <= 12)%nat
  /\ snd (main 12 line) = Ok tt
  /\ exists rows,
      fst (main 12 line) = canvas 7 rows
      /\ Z.of_nat (List.length rows) = 5
      /\ Forall2 (fun h row => street_line 12 street h = Ok row)
           (countdown 5) rows.
Proof.
  cbv zeta. split; [reflexivity|]. split; [reflexivity|].
  split; [simpl; lia|].
  pose proof (main_prints_canvas 12 "b_2,1,# p_5,*"
                [ABuilding (Building.init 2 1 "#"); APark (Park.init 5 "*")]
                eq_refl) as [Hends Hcanvas].
  split; [apply Hends; [reflexivity | simpl; lia]|].
  apply Hcanvas. apply Hends; [reflexivity | simpl; lia].
Defined.

(** X13. A street of negative total width prints nothing and ends with
    [RecursionError] at every depth: the top border is never completed. *)
Lemma main_negative_width (fuel : nat) (line : string)
  (street : list element) :
  create_street (split line) [] = Ok street ->
  find_width street < 0 ->
  main fuel line = ([], Raise RecursionError).
Proof.
  intros Hparse Hw. unfold main. rewrite Hparse.
  now rewrite border_line_diverges.
Qed.

(** C3 as stated fails: the lot of the token [e_3,] has an empty trash
    pattern; the program prints the top border and the padding row and
    stops at the lot's row with [ZeroDivisionError], so that neither a
    content row nor the bottom border is printed. *)
Lemma canvas_counterexample :
  create_street (split "e_3,") [] = Ok [AnEmptyLot (EmptyLot.init 3 "")]
  /\ max_height [AnEmptyLot (EmptyLot.init 3 "")] 0 = 1
  /\ main 8 "e_3," = (["+---+"; "|   |"], Raise ZeroDivisionError).
Proof. repeat split. Qed.

(** C1, amended. The line [b_4,3,# p_5,* e_3,x_y] parses to a building
    (4, 3, ['#']), a park (5, ['*']) and a lot (3, [x_y]); the maximum
    height is 5 and the total width 12; the first content row is
    ["      *     "] and the fifth is ["####  |  x y"]: every element
    stands on the bottom row. *)
Theorem example_street (n : nat) :
  let line := "b_4,3,# p_5,* e_3,x_y" in
  let street := [ABuilding (Building.init 4 3 "#"); APark (Park.init 5 "*");
                 AnEmptyLot (EmptyLot.init 3 "x_y")] in
  create_street (split line) [] = Ok street
  /\ max_height street 0 = 5
  /\ find_width street = 12
  /\ main (17 + n) line
     = (["+------------+";
         "|            |";
         "|      *     |";
         "|     ***    |";
         "|####*****   |";
         "|####  |     |";
         "|####  |  x y|";
         "+------------+"], Ok tt).
Proof.
  cbv zeta. split; [reflexivity|]. split; [reflexivity|].
  split; reflexivity.
Qed.

(** C1 as stated fails: the first content row holds no brick and the fifth
    holds the bricks of the building. *)
Lemma example_street_counterexample :
  let out := fst (main 17 "b_4,3,# p_5,* e_3,x_y") in
  nth 2 out "" = bars "      *     "
  /\ nth 2 out "" <> bars "####  *     "
  /\ nth 6 out "" = bars "####  |  x y"
  /\ nth 6 out "" <> bars "      |  x y".
Proof.
  cbv zeta. split; [reflexivity|]. split; [discriminate|].
  split; [reflexivity | discriminate].
Qed.

(** C2, amended. On the empty line nothing is parsed, the total width and
    the maximum height are 0, and the output is the border [++], the
    padding row [||] and the border [++]: the padding row is always
    printed, and there is no content row. *)
Theorem empty_street (fuel : nat) :
  create_street (split "") [] = Ok []
  /\ find_width [] = 0
  /\ max_height [] 0 = 0
  /\ main fuel "" = (["++"; "||"; "++"], Ok tt).
Proof. destruct fuel; repeat split. Qed.

(** C2 as stated fails: three lines are printed, the second being the
    padding row. *)
Lemma empty_street_counterexample :
  fst (main 0 "") = ["++"; "||"; "++"]
  /\ List.length (fst (main 0 "")) = 3%nat.
Proof. split; reflexivity. Qed.

(** ** The parser *)

Lemma bind_assoc {A B C : Type} (m : result A) (f : A -> result B)
  (g : B -> result C) :
  Py.bind (Py.bind m f) g = Py.bind m (fun a => Py.bind (f a) g).
Proof. destruct m; reflexivity. Qed.

(** Every [item] and [int] of the goal is looked at in turn. *)
Ltac run_fields :=
  repeat match goal with
         | |- context [Py.bind (item ?l ?i) _] =>
             destruct (item l i); cbn [Py.bind]
         | |- context [Py.bind (int ?s) _] =>
             destruct (int s); cbn [Py.bind]
         end.

(** A call of [create_street] handles its first token and goes on with the
    list that token left. *)
Lemma create_street_cons (p : string) (rest : list string)
  (acc : list element) :
  create_street (p :: rest) acc
  = (l <- create_street [p] acc ;; create_street rest l).
Proof.
  cbn [create_street].
  destruct (first_char p) as [c|]; cbn [Py.bind]; [|reflexivity].
  destruct (Ascii.eqb c "b"), (Ascii.eqb c "p"), (Ascii.eqb c "e");
    cbn [Py.bind]; run_fields; reflexivity.
Qed.

Lemma create_street_app (xs ys : list string) :
  forall acc,
    create_street (xs ++ ys) acc
    = (l <- create_street xs acc ;; create_street ys l).
Proof.
  induction xs as [|x xs IH]; intros acc; [reflexivity|].
  cbn [app]. rewrite create_street_cons, (create_street_cons x xs).
  rewrite bind_assoc.
  destruct (create_street [x] acc); cbn [Py.bind]; [apply IH | reflexivity].
Qed.

(** C10. The second character of a token is never looked at: two tokens
    that differ only there, wherever they stand in the list, give the same
    result, since [create_street] tests the first character and reads the
    parameters from the third character on. *)
Theorem second_character_ignored (t c1 c2 : ascii) (s : string)
  (before after : list string) (acc : list element) :
  create_street (before ++ String t (String c1 s) :: after) acc
  = create_street (before ++ String t (String c2 s) :: after) acc.
Proof.
  rewrite !create_street_app.
  destruct (create_street before acc); reflexivity.
Qed.

(** *** What [int] accepts holds no comma *)

Lemma not_comma (P : ascii -> bool) (c : ascii) :
  P ","%char = false -> P c = true -> Ascii.eqb c "," = false.
Proof.
  intros Hcomma Hc. destruct (Ascii.eqb_spec c ","); [subst; congruence|].
  reflexivity.
Qed.

Lemma has_comma_lstrip (s : string) :
  has_char "," (lstrip s) = has_char "," s.
Proof.
  induction s as [|c s IH]; [reflexivity|]. cbn [lstrip].
  destruct (is_int_space c) eqn:Hc; [|reflexivity].
  cbn [has_char]. now rewrite (not_comma is_int_space c), IH.
Qed.

Lemma has_comma_rstrip (s : string) :
  has_char "," (rstrip s) = has_char "," s.
Proof.
  induction s as [|c s IH]; [reflexivity|]. cbn [rstrip has_char].
  rewrite <- IH. destruct (rstrip s); [|reflexivity].
  destruct (is_int_space c) eqn:Hc; [|reflexivity].
  now rewrite (not_comma is_int_space c).
Qed.

Lemma int_digits_no_comma (s : string) :
  forall acc v, int_digits acc s = Some v -> has_char "," s = false.
Proof.
  induction s as [|c s IH]; intros acc v; [reflexivity|].
  cbn [int_digits has_char].
  destruct (is_digit c) eqn:Hd.
  - intros Hv. rewrite (not_comma is_digit c) by easy. now apply IH in Hv.
  - destruct (Ascii.eqb_spec c "_") as [->|]; [|discriminate].
    destruct s as [|d s]; [discriminate|].
    destruct (is_digit d); [|discriminate].
    intros Hv. now apply IH in Hv.
Qed.

Lemma int_body_no_comma (s : string) (v : Z) :
  int_body s = Some v -> has_char "," s = false.
Proof.
  destruct s as [|c s]; [discriminate|]. unfold int_body.
  destruct (is_digit c); [apply int_digits_no_comma | discriminate].
Qed.

Lemma int_no_comma (s : string) (v : Z) :
  int s = Ok v -> has_char "," s = false.
Proof.
  unfold int, strip. rewrite <- has_comma_lstrip, <- has_comma_rstrip.
  destruct (rstrip (lstrip s)) as [|c u] eqn:Ht; [discriminate|].
  destruct (Ascii.eqb_spec c "-") as [->|].
  { destruct (int_body u) as [v'|] eqn:Hu; [|discriminate].
    intros _. cbn [has_char]. now apply int_body_no_comma in Hu. }
  destruct (Ascii.eqb_spec c "+") as [->|].
  { destruct (int_body u) as [v'|] eqn:Hu; [|discriminate].
    intros _. cbn [has_char]. now apply int_body_no_comma in Hu. }
  destruct (int_body (String c u)) as [v'|] eqn:Hu; [|discriminate].
  intros _. now apply int_body_no_comma in Hu.
Qed.

Lemma append_cons (a : string) (c : ascii) (b : string) :
  (a ++ String c "") ++ b = a ++ String c b.
Proof. now rewrite append_assoc. Qed.

(** A text without the separator, followed by the separator, is the first
    field of the split. *)
Lemma split_on_field (sep : ascii) (d rest : string) :
  has_char sep d = false ->
  forall cur,
    split_on sep cur (d ++ String sep rest)
    = (cur ++ d) :: split_on sep "" rest.
Proof.
  induction d as [|c d IH]; intros Hd cur.
  - cbn. rewrite Ascii.eqb_refl, append_empty_r. reflexivity.
  - cbn [has_char] in Hd. apply orb_false_iff in Hd as [Hc Hd].
    cbn. rewrite Hc, IH by assumption. now rewrite append_cons.
Qed.

(** *** [int] reads back a decimal numeral *)

Lemma int_digits_numeral (d : Decimal.uint) :
  forall acc, 0 <= acc ->
    int_digits acc (DecimalString.NilEmpty.string_of_uint d)
    = Some (Z.of_nat (Nat.of_uint_acc d (Z.to_nat acc))).
Proof.
  induction d; intros acc Hacc; cbn [DecimalString.NilEmpty.string_of_uint Nat.of_uint_acc];
    [cbn; now rewrite Z2Nat.id|..];
    cbn [int_digits];
    match goal with
    | |- context [is_digit ?c] =>
        change (is_digit c) with true; cbv iota;
        let v := eval vm_compute in (digit_value c) in
        change (digit_value c) with v
    end;
    rewrite IHd by lia; do 3 f_equal; rewrite Nat.tail_mul_spec; lia.
Qed.

Lemma strip_numeral (d : Decimal.uint) :
  strip (DecimalString.NilEmpty.string_of_uint d) = DecimalString.NilEmpty.string_of_uint d.
Proof.
  unfold strip.
  assert (Hl : lstrip (DecimalString.NilEmpty.string_of_uint d) = DecimalString.NilEmpty.string_of_uint d)
    by (destruct d; reflexivity).
  rewrite Hl.
  induction d; cbn [DecimalString.NilEmpty.string_of_uint rstrip]; [reflexivity|..];
    rewrite IHd by (destruct d; reflexivity);
    destruct (DecimalString.NilEmpty.string_of_uint d); reflexivity.
Qed.

Lemma int_decimal (w : Z) : 0 <= w -> int (decimal w) = Ok w.
Proof.
  intros Hw. unfold int, decimal. rewrite strip_numeral.
  pose proof (DecimalNat.Unsigned.of_to (Z.to_nat w)) as Hback.
  unfold Nat.of_uint in Hback.
  pose proof (int_digits_numeral (Nat.to_uint (Z.to_nat w)) 0 ltac:(lia))
    as Hdigits.
  change (Z.to_nat 0) with O in Hdigits. rewrite Hback, Z2Nat.id in Hdigits
    by exact Hw.
  destruct (Nat.to_uint (Z.to_nat w)) eqn:Hd;
    cbn [DecimalString.NilEmpty.string_of_uint] in *;
    [cbn in Hdigits; injection Hdigits as <-; discriminate Hd|..];
    cbn [Ascii.eqb Bool.eqb int_body];
    match goal with
    | |- context [is_digit ?c] => change (is_digit c) with true; cbv iota
    end;
    now rewrite Hdigits.
Qed.

(** C9. A lot with an empty trash pattern and a width of at least one fails
    at height 1 with a division by zero instead of returning a row; the
    token [e_<width>,], the width written in decimal, builds such a lot. *)
Theorem empty_trash_fails (fuel : nat) (w : Z) :
  1 <= w ->
  EmptyLot.at_height fuel (EmptyLot.init w "") 1 = Raise ZeroDivisionError
  /\ create_street ["e_" ++ decimal w ++ ","] []
     = Ok [AnEmptyLot (EmptyLot.init w "")].
Proof.
  intros Hw. split.
  - unfold EmptyLot.at_height, EmptyLot.trash_to_width. cbn.
    destruct (Z.geb_spec 0 w); [lia | reflexivity].
  - cbn. unfold split_sep, slice_from. cbn [drop].
    rewrite split_on_field
      by (apply int_no_comma with w, int_decimal; lia).
    cbn. rewrite int_decimal by lia. reflexivity.
Qed.

Lemma empty_trash_fails_witness :
  1 <= 3
  /\ EmptyLot.at_height 0 (EmptyLot.init 3 "") 1 = Raise ZeroDivisionError
  /\ create_street ["e_3,"] [] = Ok [AnEmptyLot (EmptyLot.init 3 "")].
Proof.
  split; [lia|]. apply (empty_trash_fails 0 3). lia.
Defined.

(** *** One token at a time *)

Lemma create_street_token (tok : string) :
  (well_formed tok = false
   /\ forall acc, exists err, create_street [tok] acc = Raise err)
  \/ (well_formed tok = true /\ recognized tok = false
      /\ forall acc, create_street [tok] acc = Ok acc)
  \/ (well_formed tok = true /\ recognized tok = true
      /\ exists e, first_char tok = Ok (kind e)
                   /\ forall acc, create_street [tok] acc = Ok (acc ++ [e])%list).
Proof.
  destruct tok as [|c rest].
  { left. split; [reflexivity|]. intros acc. now exists IndexError. }
  unfold well_formed, recognized. cbn [create_street first_char Py.bind].
  set (parameters := split_sep (slice_from (String c rest) 2) ",").
  destruct (Ascii.eqb_spec c "b") as [->|Hb].
  { cbn [Ascii.eqb Bool.eqb orb Py.bind]. unfold is_int, item.
    destruct parameters as [|p0 [|p1 [|p2 more]]]; cbn;
      try (left; split; [reflexivity|]; intros acc; eexists; reflexivity);
      destruct (int p0); cbn;
      try (left; split; [reflexivity|]; intros acc; eexists; reflexivity);
      try destruct (int p1); cbn;
      try (left; split; [reflexivity|]; intros acc; eexists; reflexivity).
    right. right. repeat split. eexists. split; [|intros acc; reflexivity].
    reflexivity. }
  destruct (Ascii.eqb_spec c "p") as [->|Hp].
  { cbn [Ascii.eqb Bool.eqb orb Py.bind]. unfold is_int, item.
    destruct parameters as [|p0 [|p1 more]]; cbn;
      try (left; split; [reflexivity|]; intros acc; eexists; reflexivity);
      destruct (int p0); cbn;
      try (left; split; [reflexivity|]; intros acc; eexists; reflexivity).
    right. right. repeat split. eexists. split; [|intros acc; reflexivity].
    reflexivity. }
  destruct (Ascii.eqb_spec c "e") as [->|He].
  { cbn [Ascii.eqb Bool.eqb orb Py.bind]. unfold is_int, item.
    destruct parameters as [|p0 [|p1 more]]; cbn;
      try (left; split; [reflexivity|]; intros acc; eexists; reflexivity);
      destruct (int p0); cbn;
      try (left; split; [reflexivity|]; intros acc; eexists; reflexivity).
    right. right. repeat split. eexists. split; [|intros acc; reflexivity].
    reflexivity. }
  right. left. cbn [orb Py.bind]. repeat split.
Qed.

Lemma create_street_run (parts : list string) :
  forall acc,
    (forallb well_formed parts = true
     /\ exists els, create_street parts acc = Ok (acc ++ els)%list
                    /\ Forall2 made_from (filter recognized parts) els)
    \/ (forallb well_formed parts = false
        /\ exists err, create_street parts acc = Raise err).
Proof.
  induction parts as [|tok parts IH]; intros acc.
  { left. split; [reflexivity|]. exists []. rewrite app_nil_r.
    split; [reflexivity | constructor]. }
  rewrite create_street_cons. cbn [forallb filter].
  destruct (create_street_token tok)
    as [[Hwf Hraise] | [[Hwf [Hrec Hone]] | [Hwf [Hrec [e [Hk Hone]]]]]];
    rewrite Hwf.
  - right. split; [reflexivity|].
    destruct (Hraise acc) as [err Herr]. exists err. now rewrite Herr.
  - rewrite Hrec, Hone. cbn [Py.bind andb]. apply IH.
  - rewrite Hrec, Hone. cbn [Py.bind andb].
    destruct (IH (acc ++ [e])%list)
      as [[Hall [els [Hrun Hels]]] | [Hall Herr]].
    + left. split; [assumption|]. exists (e :: els). split.
      * rewrite Hrun, <- app_assoc. reflexivity.
      * constructor; [|assumption]. split; [assumption | apply (Hone [])].
    + right. split; assumption.
Qed.

(** C8, amended. For every list of well-formed tokens, [create_street]
    returns exactly one element per token whose first character is ['b'],
    ['p'] or ['e'], of the class that character names, in the order of the
    tokens; a token with another first character adds no element.  On a
    list with a token that is not well formed it raises. *)
Theorem create_street_elements (parts : list string) :
  (forallb well_formed parts = true ->
   exists street,
     create_street parts [] = Ok street
     /\ Forall2 made_from (filter recognized parts) street)
  /\ (forallb well_formed parts = false ->
      exists err, create_street parts [] = Raise err).
Proof.
  destruct (create_street_run parts []) as [[Hgood Hrun] | [Hbad Herr]];
    split; intros Hwf; congruence || assumption.
Qed.

Lemma create_street_elements_witness :
  let parts := ["x_3"; "p_7,ab"; "?"; "bb4,5,#,rest"; "e_1,z"] in
  forallb well_formed parts = true
  /\ exists street,
      create_street parts [] = Ok street
      /\ Forall2 made_from ["p_7,ab"; "bb4,5,#,rest"; "e_1,z"] street.
Proof.
  cbv zeta. split; [reflexivity|].
  apply (create_street_elements
           ["x_3"; "p_7,ab"; "?"; "bb4,5,#,rest"; "e_1,z"]).
  reflexivity.
Defined.

(** C8 as stated fails: the token [b] starts with ['b'] and has no
    parameters, and the empty token has no first character; on either
    [create_street] raises and returns no element. *)
Lemma create_street_counterexample :
  recognized "b" = true
  /\ create_street ["b"] [] = Raise ValueError
  /\ create_street [""] [] = Raise IndexError.
Proof. repeat split. Qed.

(** ** Further properties of the helpers *)

(** X1. [max_height] returns the largest of the starting value and the
    heights of the elements: it is at least the starting value and at least
    every height, and it is the starting value or the height of an
    element. *)
Theorem max_height_is_maximum (street : list element) :
  forall m,
    m <= max_height street m
    /\ Forall (fun e => height e <= max_height street m) street
    /\ (max_height street m = m
        \/ exists e, In e street /\ max_height street m = height e).
Proof.
  induction street as [|e street IH]; intros m; cbn [max_height].
  { split; [lia|]. split; [constructor | now left]. }
  set (m' := if height e >? m then height e else m).
  destruct (IH m') as [Hlow [Hall Hwhich]].
  assert (Hm : m <= m' /\ height e <= m' /\ (m' = m \/ m' = height e))
    by (unfold m'; destruct (Z.gtb_spec (height e) m); lia).
  split; [lia|]. split; [constructor; [lia | exact Hall]|].
  destruct Hwhich as [Hsame | [x [Hin Hx]]].
  - destruct Hm as [_ [_ [Hm | Hm]]]; [left; lia|].
    right. exists e. split; [now left | lia].
  - right. exists x. split; [now right | exact Hx].
Qed.

(** X2. The four countdown helpers are one function: on every width,
    filling and depth, [fill_line] and [border_line] give what
    [single_line] gives, and [empty_line] what [single_line] gives for a
    space, failures included. *)
Theorem countdown_helpers_agree (fuel : nat) (c : string) :
  forall w,
    Park.fill_line fuel w c = Building.single_line fuel w c
    /\ border_line fuel w c = Building.single_line fuel w c
    /\ EmptyLot.empty_line fuel w = Building.single_line fuel w " ".
Proof.
  assert (Hspace : forall n w,
             EmptyLot.empty_line n w = Building.single_line n w " ").
  { induction n as [|n IH]; intros w; simpl;
      destruct (w =? 0); try reflexivity. now rewrite IH. }
  induction fuel as [|fuel IH]; intros w; simpl;
    destruct (w =? 0); repeat split; try reflexivity;
    try apply (Hspace (S fuel));
    destruct (IH (w - 1)) as [Hfill [Hborder _]];
    rewrite ?Hfill, ?Hborder; try reflexivity.
  all: rewrite <- Hspace; simpl; destruct (w =? 0); reflexivity.
Qed.

(** X3. [border_line] returns exactly on a non-negative width: there it
    gives the filling repeated [width] times, once the depth reaches the
    width; on a negative width it raises [RecursionError] at every depth. *)
Theorem border_line_result (w : Z) (c : string) :
  (0 <= w ->
   forall fuel, (Z.to_nat w <= fuel)%nat ->
                border_line fuel w c = Ok (str_mul c w)
                /\ len (str_mul c w) = w * len c)
  /\ (w < 0 -> forall fuel, border_line fuel w c = Raise RecursionError)
  /\ (forall fuel s, border_line fuel w c = Ok s -> 0 <= w /\ s = str_mul c w).
Proof.
  split; [|split].
  - intros Hw fuel Hf. split; [now apply border_line_returns|].
    now apply len_str_mul.
  - intros Hw fuel. now apply border_line_diverges.
  - intros fuel s Hs. pose proof Hs as Hret.
    apply border_line_returned in Hret.
    rewrite border_line_returns in Hs by lia.
    injection Hs as <-. split; [lia | reflexivity].
Qed.

Lemma border_line_result_witness :
  0 <= 3 /\ (Z.to_nat 3 <= 3)%nat /\ -1 < 0
  /\ border_line 3 3 "-" = Ok "---"
  /\ border_line 9 (-1) "-" = Raise RecursionError.
Proof.
  split; [lia|]. split; [simpl; lia|]. split; [lia|].
  pose proof (border_line_result 3 "-") as [Hret _].
  pose proof (border_line_result (-1) "-") as [_ [Hdiv _]].
  split; [apply Hret; simpl; lia | apply Hdiv; lia].
Defined.

(** X4. [trash_to_width] raises exactly when the pattern is empty and the
    width is at least one, and then it raises [ZeroDivisionError]; on any
    other pattern and width it returns a row, and on a pattern that is not
    empty and a non-negative width that row has [width] characters. *)
Theorem trash_to_width_error (l : EmptyLot.t) (pattern : string) :
  (pattern = "" -> 1 <= EmptyLot.width l ->
   EmptyLot.trash_to_width l pattern = Raise ZeroDivisionError)
  /\ (pattern <> "" \/ EmptyLot.width l <= 0 ->
      exists row, EmptyLot.trash_to_width l pattern = Ok row)
  /\ (pattern <> "" -> 0 <= EmptyLot.width l ->
      exists row, EmptyLot.trash_to_width l pattern = Ok row
                  /\ len row = EmptyLot.width l).
Proof.
  assert (Hlen : pattern <> "" -> 0 < len pattern).
  { intros Hp. unfold len. destruct pattern; [congruence | simpl; lia]. }
  split; [|split].
  - intros -> Hw. unfold EmptyLot.trash_to_width. cbn.
    destruct (Z.geb_spec 0 (EmptyLot.width l)); [lia | reflexivity].
  - intros Hcase. unfold EmptyLot.trash_to_width.
    destruct (Z.geb_spec (len pattern) (EmptyLot.width l)) as [Hge|Hlt];
      [eexists; reflexivity|].
    destruct Hcase as [Hp | Hw]; [|unfold len in Hlt; lia].
    apply Hlen in Hp. unfold floordiv, modulo.
    destruct (Z.eqb_spec (len pattern) 0); [lia|]. eexists. reflexivity.
  - intros Hp Hw. apply Hlen in Hp.
    exists (fitted pattern (EmptyLot.width l)).
    split; [now apply trash_to_width_returns | now apply len_fitted].
Qed.

Lemma trash_to_width_error_witness :
  let l := EmptyLot.init 5 "any" in
  1 <= EmptyLot.width l /\ "ab" <> ""
  /\ EmptyLot.trash_to_width l "" = Raise ZeroDivisionError
  /\ exists row, EmptyLot.trash_to_width l "ab" = Ok row
                 /\ len row = EmptyLot.width l.
Proof.
  cbv zeta. split; [simpl; lia|]. split; [discriminate|].
  pose proof (trash_to_width_error (EmptyLot.init 5 "any") "")
    as [Hfail _].
  pose proof (trash_to_width_error (EmptyLot.init 5 "any") "ab")
    as [_ [_ Hrow]].
  split; [apply Hfail; [reflexivity | simpl; lia]|].
  apply Hrow; [discriminate | simpl; lia].
Defined.

(** X5. [change_spaces] changes nothing but underscores: it keeps the
    length, leaves a text without underscore as it is, gives the same text
    when applied twice, and works piece by piece on a concatenation. *)
Theorem change_spaces_only_underscores (t u : string) :
  String.length (EmptyLot.change_spaces t) = String.length t
  /\ EmptyLot.change_spaces (EmptyLot.change_spaces t)
     = EmptyLot.change_spaces t
  /\ EmptyLot.change_spaces (t ++ u)
     = EmptyLot.change_spaces t ++ EmptyLot.change_spaces u
  /\ (has_char "_" t = false -> EmptyLot.change_spaces t = t).
Proof.
  assert (Hkeep : forall s, has_char "_" s = false ->
                            EmptyLot.change_spaces s = s).
  { induction s as [|c s IH]; [reflexivity|]. cbn [has_char].
    intros Hs. apply orb_false_iff in Hs as [Hc Hs].
    cbn [EmptyLot.change_spaces]. rewrite Hc, IH by exact Hs. reflexivity. }
  split; [apply length_change_spaces|].
  split; [apply Hkeep, change_spaces_no_underscore|].
  split; [|apply Hkeep].
  induction t as [|c t IH]; [reflexivity|].
  cbn [append EmptyLot.change_spaces].
  destruct (Ascii.eqb c "_"); cbn [append]; now rewrite IH.
Qed.

Lemma change_spaces_only_underscores_witness :
  has_char "_" "a b" = false
  /\ EmptyLot.change_spaces "a b" = "a b"
  /\ EmptyLot.change_spaces ("x_" ++ "_y") = "x " ++ " y".
Proof.
  split; [reflexivity|].
  pose proof (change_spaces_only_underscores "a b" "") as [_ [_ [_ Hkeep]]].
  pose proof (change_spaces_only_underscores "x_" "_y") as [_ [_ [Happ _]]].
  split; [apply Hkeep; reflexivity | exact Happ].
Defined.

(** ** Further properties of the parser *)

(** The accumulator is only ever extended: what a token adds does not
    depend on what is already there. *)
Lemma create_street_token_acc (tok : string) (acc : list element) :
  create_street [tok] acc
  = match create_street [tok] [] with
    | Ok els => Ok (acc ++ els)%list
    | Raise err => Raise err
    end.
Proof.
  destruct tok as [|c rest]; [reflexivity|].
  cbn [create_street first_char Py.bind].
  destruct (Ascii.eqb c "b"), (Ascii.eqb c "p"), (Ascii.eqb c "e");
    cbn [Py.bind]; run_fields; cbn [app];
    rewrite <- ?app_assoc, ?app_nil_r; reflexivity.
Qed.

Lemma create_street_acc (parts : list string) :
  forall acc,
    create_street parts acc
    = match create_street parts [] with
      | Ok els => Ok (acc ++ els)%list
      | Raise err => Raise err
      end.
Proof.
  induction parts as [|tok parts IH]; intros acc.
  { cbn. now rewrite app_nil_r. }
  rewrite create_street_cons, (create_street_cons tok parts []).
  rewrite (create_street_token_acc tok acc).
  destruct (create_street [tok] []) as [one|]; cbn [Py.bind app];
    [|reflexivity].
  rewrite (IH (acc ++ one)%list), (IH one).
  destruct (create_street parts []); [|reflexivity].
  now rewrite app_assoc.
Qed.

(** X6. Parsing a list of tokens cut in two gives the elements of the first
    part followed by those of the second, after whatever the accumulator
    held; the first part that fails gives the error. *)
Theorem create_street_concat (xs ys : list string) (acc : list element) :
  create_street (xs ++ ys) acc
  = match create_street xs [], create_street ys [] with
    | Ok front, Ok back => Ok (acc ++ front ++ back)%list
    | Ok _, Raise err => Raise err
    | Raise err, _ => Raise err
    end.
Proof.
  rewrite create_street_app, (create_street_acc xs acc).
  destruct (create_street xs []) as [front|]; cbn [Py.bind]; [|reflexivity].
  rewrite (create_street_acc ys).
  destruct (create_street ys []); [|reflexivity].
  now rewrite app_assoc.
Qed.

Lemma create_street_token_constructed (tok : string) (acc l : list element) :
  Forall constructed acc -> create_street [tok] acc = Ok l ->
  Forall constructed l.
Proof.
  intros Hacc. destruct tok as [|c rest]; [discriminate|].
  cbn [create_street first_char Py.bind].
  destruct (Ascii.eqb c "b"), (Ascii.eqb c "p"), (Ascii.eqb c "e");
    cbn [Py.bind]; run_fields; try discriminate; intros [= <-];
    repeat (apply Forall_app; split); try assumption;
    repeat constructor.
Qed.

Lemma create_street_constructed (parts : list string) :
  forall acc l,
    Forall constructed acc -> create_street parts acc = Ok l ->
    Forall constructed l.
Proof.
  induction parts as [|tok parts IH]; intros acc l Hacc.
  { now intros [= <-]. }
  rewrite create_street_cons.
  destruct (create_street [tok] acc) as [one|] eqn:Hone; [|discriminate].
  cbn [Py.bind]. apply IH.
  now apply (create_street_token_constructed tok acc).
Qed.

Lemma max_height_upper (street : list element) (e : element) :
  In e street -> forall m, height e <= max_height street m.
Proof.
  induction street as [|x street IH]; intros Hin m; [contradiction|].
  cbn [max_height]. destruct Hin as [-> | Hin]; [|now apply IH].
  pose proof (max_height_lower street
                (if height e >? m then height e else m)) as Hlow.
  destruct (Z.gtb_spec (height e) m); lia.
Qed.

(** X7. Every element [create_street] returns is an object as its
    initialiser makes it: whatever the token says, a park has height 5 and
    a lot height 1; so the maximum height of a parsed street with a park
    is at least 5, and with a lot at least 1. *)
Theorem create_street_builds_objects (parts : list string)
  (street : list element) :
  create_street parts [] = Ok street ->
  Forall constructed street
  /\ (forall p, In (APark p) street ->
                Park.height p = 5 /\ 5 <= max_height street 0)
  /\ (forall l, In (AnEmptyLot l) street ->
                EmptyLot.height l = 1 /\ 1 <= max_height street 0).
Proof.
  intros Hparse.
  assert (Hall : Forall constructed street)
    by (apply (create_street_constructed parts [] street);
        [constructor | exact Hparse]).
  split; [exact Hall|].
  rewrite Forall_forall in Hall. split.
  - intros p Hin. pose proof (Hall _ Hin) as Hp. cbn in Hp.
    assert (Hh : Park.height p = 5) by (rewrite Hp; reflexivity).
    split; [exact Hh|].
    pose proof (max_height_upper street _ Hin 0) as Hup. cbn in Hup. lia.
  - intros l Hin. pose proof (Hall _ Hin) as Hl. cbn in Hl.
    assert (Hh : EmptyLot.height l = 1) by (rewrite Hl; reflexivity).
    split; [exact Hh|].
    pose proof (max_height_upper street _ Hin 0) as Hup. cbn in Hup. lia.
Qed.

Lemma create_street_builds_objects_witness :
  let street := [ABuilding (Building.init 2 9 "#"); APark (Park.init 7 "*")] in
  create_street ["b_2,9,#"; "p_7,*"] [] = Ok street
  /\ Forall constructed street
  /\ (forall p, In (APark p) street ->
                Park.height p = 5 /\ 5 <= max_height street 0).
Proof.
  cbv zeta. split; [reflexivity|].
  pose proof (create_street_builds_objects ["b_2,9,#"; "p_7,*"]
                [ABuilding (Building.init 2 9 "#"); APark (Park.init 7 "*")]
                eq_refl) as [Hall [Hpark _]].
  split; [exact Hall | exact Hpark].
Defined.

(** The tokens of [split] are never empty. *)
Lemma split_ws_first_char (s : string) :
  forall cur, Forall (fun tok => tok <> "") (split_ws cur s).
Proof.
  induction s as [|c s IH]; intros cur; cbn [split_ws].
  - destruct cur; constructor; [discriminate | constructor].
  - destruct (is_space c); [|apply IH].
    destruct cur; [apply IH|]. constructor; [discriminate | apply IH].
Qed.

Lemma create_street_unrecognized (parts : list string) :
  Forall (fun tok => tok <> "") parts ->
  existsb recognized parts = false ->
  forall acc, create_street parts acc = Ok acc.
Proof.
  induction parts as [|tok parts IH]; intros Hne Hno acc; [reflexivity|].
  inversion Hne as [|? ? Htok Hrest]; subst.
  cbn [existsb] in Hno. apply orb_false_iff in Hno as [Hrec Hno].
  destruct tok as [|c rest]; [congruence|].
  cbn [recognized] in Hrec.
  apply orb_false_iff in Hrec as [Hrec He].
  apply orb_false_iff in Hrec as [Hb Hp].
  cbn [create_street first_char Py.bind]. rewrite Hb, Hp, He.
  cbn [Py.bind]. now apply IH.
Qed.

Lemma border_line_zero (fuel : nat) (c : string) :
  border_line fuel 0 c = Ok "".
Proof. destruct fuel; reflexivity. Qed.

(** X8. A line without any token that starts with ['b'], ['p'] or ['e'],
    and so the empty line and a line of white space, prints the empty
    canvas [++], [||], [++] and ends normally: the tokens are skipped
    without an error, and none of the countdown helpers needs a nested
    call, which is why [fuel] is arbitrary.  (The parser's own recursion,
    one call per token, uses no [fuel].) *)
Theorem unrecognized_line_empty_canvas (fuel : nat) (line : string) :
  existsb recognized (split line) = false ->
  main fuel line = (["++"; "||"; "++"], Ok tt).
Proof.
  intros Hno. unfold main.
  rewrite (create_street_unrecognized (split line))
    by (apply split_ws_first_char || exact Hno).
  cbn [find_width max_height]. rewrite !border_line_zero.
  rewrite print_street_done. reflexivity.
Qed.

Lemma unrecognized_line_empty_canvas_witness :
  existsb recognized (split "  x_3  4,2,#   ") = false
  /\ main 0 "  x_3  4,2,#   " = (["++"; "||"; "++"], Ok tt).
Proof.
  split; [reflexivity|].
  apply (unrecognized_line_empty_canvas 0 "  x_3  4,2,#   "). reflexivity.
Defined.

(** X9. A line with a token that is not well formed prints nothing, not
    even the top border: the whole line is parsed before the first
    [print]. *)
Theorem malformed_line_prints_nothing (fuel : nat) (line : string) :
  forallb well_formed (split line) = false ->
  exists err, main fuel line = ([], Raise err).
Proof.
  intros Hbad. unfold main.
  destruct (create_street_run (split line) [])
    as [[Hgood _] | [_ [err Herr]]]; [congruence|].
  exists err. now rewrite Herr.
Qed.

Lemma malformed_line_prints_nothing_witness :
  forallb well_formed (split "b_4,3,# p_x,*") = false
  /\ exists err, main 20 "b_4,3,# p_x,*" = ([], Raise err).
Proof.
  split; [reflexivity|].
  apply (malformed_line_prints_nothing 20 "b_4,3,# p_x,*"). reflexivity.
Defined.

(** ** Further properties of the rendering *)

(** X10. The street composer works piece by piece: on two streets put end
    to end the total width is the sum of the two widths, the maximum
    height is taken over the first and then the second, and a row is the
    row of the first followed by the row of the second, the first failure
    from the left being the one raised. *)
Theorem street_concat (fuel : nat) (front back : list element) (h m : Z) :
  find_width (front ++ back) = find_width front + find_width back
  /\ max_height (front ++ back) m = max_height back (max_height front m)
  /\ street_line fuel (front ++ back) h
     = (x <- street_line fuel front h ;;
        y <- street_line fuel back h ;;
        Ok (x ++ y)).
Proof.
  split; [|split].
  - induction front as [|e front IH]; cbn [app find_width]; lia.
  - revert m. induction front as [|e front IH]; intros m;
      cbn [app max_height]; [reflexivity | apply IH].
  - induction front as [|e front IH]; cbn [app street_line Py.bind].
    + destruct (street_line fuel back h); reflexivity.
    + destruct (at_height fuel e h) as [here|]; cbn [Py.bind];
        [|reflexivity].
      rewrite IH.
      destruct (street_line fuel front h) as [x|]; cbn [Py.bind];
        [|reflexivity].
      destruct (street_line fuel back h) as [y|]; cbn [Py.bind];
        [|reflexivity].
      now rewrite append_assoc.
Qed.

(** X11. [print_street] only adds lines: what was printed before stays as
    it was, every line added is a row between two bars, and when it
    returns normally the height was not negative and exactly that many
    rows were added. *)
Theorem print_street_appends (street : list element) (fuel : nat) :
  forall h out,
  exists rows,
    fst (print_street fuel street h out) = (out ++ map bars rows)%list
    /\ (forall u, snd (print_street fuel street h out) = Ok u ->
                  0 <= h /\ Z.of_nat (List.length rows) = h).
Proof.
  induction fuel as [|fuel IH]; intros h out; cbn [print_street];
    destruct (Z.eqb_spec h 0) as [->|Hh];
    try (exists []; cbn [map fst snd List.length]; rewrite app_nil_r;
         split; [reflexivity | intros u Hu; (split; lia) || discriminate]).
  destruct (street_line fuel street h) as [line|];
    [|exists []; cbn [map fst snd]; rewrite app_nil_r;
      split; [reflexivity | discriminate]].
  change ("|" ++ line ++ "|") with (bars line).
  destruct (IH (h - 1) (print (bars line) out)) as [rows [Hout Hret]].
  exists (line :: rows). split.
  - rewrite Hout. unfold print. now rewrite <- app_assoc.
  - intros u Hu. apply Hret in Hu. cbn [List.length]. lia.
Qed.

Lemma print_street_appends_witness :
  let street := [ABuilding (Building.init 2 1 "#");
                 AnEmptyLot (EmptyLot.init 1 "")] in
  exists rows,
    fst (print_street 9 street 3 ["+---+"])
    = (["+---+"] ++ map bars rows)%list
    /\ (forall u, snd (print_street 9 street 3 ["+---+"]) = Ok u ->
                  0 <= 3 /\ Z.of_nat (List.length rows) = 3).
Proof.
  cbv zeta.
  apply (print_street_appends
           [ABuilding (Building.init 2 1 "#");
            AnEmptyLot (EmptyLot.init 1 "")] 9 3 ["+---+"]).
Defined.

(** The run of [main] on a parsed street, by what it printed. *)
Lemma main_run (fuel : nat) (line : string) (street : list element) :
  create_street (split line) [] = Ok street ->
  (forallb valid_parameters street = true ->
   (Z.to_nat (find_width street) + Z.to_nat (max_height street 0)
    <= fuel)%nat ->
   snd (main fuel line) = Ok tt)
  /\ (snd (main fuel line) = Ok tt ->
      exists rows,
        fst (main fuel line) = canvas (find_width street) rows
        /\ Forall2 (fun h row => street_line fuel street h = Ok row)
             (countdown (Z.to_nat (max_height street 0))) rows).
Proof.
  intros Hparse.
  pose proof (max_height_lower street 0) as Hh.
  unfold main. rewrite Hparse. split.
  - intros Hv Hf.
    pose proof (find_width_nonneg street Hv) as Hw.
    destruct (print_street_valid street Hv
                (Z.to_nat (max_height street 0)) fuel
                [border (find_width street);
                 bars (spaces (find_width street))])
      as [rows [Hrun _]]; [exact Hf|].
    rewrite Z2Nat.id in Hrun by exact Hh.
    rewrite !border_line_returns by lia.
    change (print ("|" ++ str_mul " " (find_width street) ++ "|")
              (print ("+" ++ str_mul "-" (find_width street) ++ "+") []))
      with [border (find_width street); bars (spaces (find_width street))].
    rewrite Hrun. reflexivity.
  - destruct (border_line fuel (find_width street) "-") as [top|] eqn:Htop;
      [|discriminate].
    pose proof Htop as Hret. apply border_line_returned in Hret.
    rewrite border_line_returns in Htop |- * by lia.
    injection Htop as <-.
    change (print ("|" ++ str_mul " " (find_width street) ++ "|")
              (print ("+" ++ str_mul "-" (find_width street) ++ "+") []))
      with [border (find_width street); bars (spaces (find_width street))].
    destruct (print_street fuel street (max_height street 0)
                [border (find_width street);
                 bars (spaces (find_width street))])
      as [out [u|err]] eqn:Hrun; [|discriminate].
    intros _.
    rewrite <- (Z2Nat.id (max_height street 0)) in Hrun by exact Hh.
    apply print_street_returned in Hrun as [rows [-> Hrows]].
    exists rows. split; [|exact Hrows].
    cbn [fst]. unfold canvas, print. cbn [app]. reflexivity.
Qed.

Lemma at_height_len (e : element) (h : Z) :
  valid_parameters e = true -> single_glyph e = true ->
  forall k row, at_height k e h = Ok row -> len row = width e.
Proof.
  intros Hv Hg k row Hrow. pose proof (valid_width e Hv) as Hw.
  destruct (at_height_valid e h Hv) as [full Hfull].
  pose proof (Hfull (Nat.max k (Z.to_nat (width e))) ltac:(lia)) as Hbig.
  rewrite (at_height_more_fuel k (Nat.max k (Z.to_nat (width e))) e h row
             ltac:(lia) Hrow) in Hbig.
  injection Hbig as ->.
  specialize (Hfull (Z.to_nat (width e)) ltac:(lia)).
  destruct e as [b|p|l]; cbn in Hfull, Hv, Hg, Hw |- *.
  - apply Nat.eqb_eq in Hg. rewrite building_row in Hfull by lia.
    injection Hfull as <-.
    destruct (Building.height b <? h); [apply len_spaces; lia|].
    rewrite len_str_mul by lia. unfold len. rewrite Hg. lia.
  - apply andb_prop in Hv as [Hodd H5]. apply Z.leb_le in H5.
    apply Nat.eqb_eq in Hg. apply Z.odd_spec in Hodd as [j Hj].
    rewrite park_row in Hfull by lia. cbv zeta in Hfull.
    injection Hfull as <-.
    assert (Hbar : len "|" = 1) by reflexivity.
    assert (Hfol : len (Park.fol p) = 1) by (unfold len; rewrite Hg; lia).
    destruct (5 <? h); [apply len_spaces; lia|].
    destruct (2 >=? h); [|destruct (h =? 3); [|destruct (h =? 4)]];
      rewrite len_band by (Z.div_mod_to_equations; lia);
      rewrite ?Hbar, ?Hfol; Z.div_mod_to_equations; lia.
  - apply andb_prop in Hv as [_ Ht].
    apply negb_true_iff, String.eqb_neq in Ht.
    rewrite lot_row in Hfull by (assumption || lia).
    injection Hfull as <-.
    destruct (h >? 1); [apply len_spaces; lia|].
    apply len_fitted; [lia|].
    unfold len. rewrite length_change_spaces.
    destruct (EmptyLot.trash l); [congruence | simpl; lia].
Qed.

Lemma street_line_len (street : list element) (h : Z) :
  forallb valid_parameters street = true ->
  forallb single_glyph street = true ->
  forall k row, street_line k street h = Ok row ->
                len row = find_width street.
Proof.
  induction street as [|e street IH]; cbn [forallb street_line find_width];
    intros Hv Hg k row.
  { now intros [= <-]. }
  apply andb_prop in Hv as [He Hv]. apply andb_prop in Hg as [Hge Hg].
  destruct (at_height k e h) as [here|] eqn:Hhere; [|discriminate].
  destruct (street_line k street h) as [there|] eqn:Hthere; [|discriminate].
  cbn [Py.bind]. intros [= <-]. rewrite len_append.
  rewrite (at_height_len e h He Hge k here Hhere), (IH Hv Hg k there Hthere).
  reflexivity.
Qed.

Lemma Forall2_rows {P : Z -> string -> Prop} {Q : string -> Prop}
  (heights : list Z) (rows : list string) :
  (forall h row, P h row -> Q row) ->
  Forall2 P heights rows -> Forall Q rows.
Proof.
  intros HPQ Hrows. induction Hrows; constructor; eauto.
Qed.

(** X12. The canvas of a street with valid parameters and one-character
    bricks and foliage is a rectangle: [max_height + 3] lines are printed,
    and each has [total width + 2] characters. *)
Theorem canvas_is_rectangular (fuel : nat) (line : string)
  (street : list element) :
  create_street (split line) [] = Ok street ->
  forallb valid_parameters street = true ->
  forallb single_glyph street = true ->
  (Z.to_nat (find_width street) + Z.to_nat (max_height street 0)
   <= fuel)%nat ->
  Forall (fun printed => len printed = find_width street + 2)
    (fst (main fuel line))
  /\ Z.of_nat (List.length (fst (main fuel line)))
     = max_height street 0 + 3.
Proof.
  intros Hparse Hv Hg Hf.
  destruct (main_run fuel line street Hparse) as [Hends Hshape].
  destruct (Hshape (Hends Hv Hf)) as [rows [-> Hrows]].
  pose proof (find_width_nonneg street Hv) as Hw.
  pose proof (max_height_lower street 0) as Hh.
  assert (Hbars : forall row, len row = find_width street ->
                              len (bars row) = find_width street + 2).
  { intros row Hrow. unfold bars. rewrite !len_append, Hrow.
    change (len "|") with 1. lia. }
  assert (Hborder : len (border (find_width street)) = find_width street + 2).
  { unfold border. rewrite !len_append, len_str_mul by lia.
    change (len "+") with 1. change (len "-") with 1. lia. }
  split.
  - unfold canvas. constructor; [exact Hborder|].
    constructor; [apply Hbars, len_spaces; lia|].
    apply Forall_app. split; [|constructor; [exact Hborder | constructor]].
    apply Forall_map.
    refine (Forall2_rows _ rows _ Hrows). intros h row Hrow.
    apply Hbars. now apply (street_line_len street h Hv Hg fuel).
  - apply Forall2_length in Hrows. rewrite length_countdown in Hrows.
    unfold canvas. cbn [List.length]. rewrite length_app, length_map.
    cbn [List.length]. lia.
Qed.

Lemma canvas_is_rectangular_witness :
  let line := "e_4,a_ b_2,3,# p_5,*" in
  let street := [AnEmptyLot (EmptyLot.init 4 "a_");
                 ABuilding (Building.init 2 3 "#");
                 APark (Park.init 5 "*")] in
  create_street (split line) [] = Ok street
  /\ forallb valid_parameters street = true
  /\ forallb single_glyph street = true
  /\ (Z.to_nat (find_width street) + Z.to_nat (max_height street 0)
      <= 16)%nat
  /\ Forall (fun printed => len printed = 11 + 2) (fst (main 16 line))
  /\ Z.of_nat (List.length (fst (main 16 line))) = 5 + 3.
Proof.
  cbv zeta. do 3 (split; [reflexivity|]). split; [simpl; lia|].
  apply (canvas_is_rectangular 16 "e_4,a_ b_2,3,# p_5,*"
           [AnEmptyLot (EmptyLot.init 4 "a_");
            ABuilding (Building.init 2 3 "#");
            APark (Park.init 5 "*")]);
    [reflexivity | reflexivity | reflexivity | simpl; lia].
Defined.

Lemma main_negative_width_witness :
  let line := "b_2,1,# e_-5,ab" in
  let street := [ABuilding (Building.init 2 1 "#");
                 AnEmptyLot (EmptyLot.init (-5) "ab")] in
  create_street (split line) [] = Ok street
  /\ find_width street < 0
  /\ main 50 line = ([], Raise RecursionError).
Proof.
  cbv zeta. split; [reflexivity|]. split; [reflexivity|].
  apply (main_negative_width 50 "b_2,1,# e_-5,ab"
           [ABuilding (Building.init 2 1 "#");
            AnEmptyLot (EmptyLot.init (-5) "ab")]); reflexivity.
Defined.






(** X15. A park of even width, six or more, is drawn one column short:
    with a one-character foliage each of its five rows has [width - 1]
    characters, while its blank rows above height 5 have [width]. *)
Theorem even_park_rows_short (fuel : nat) (w : Z) (fol : string) (h : Z) :
  Z.even w = true -> 6 <= w -> String.length fol = 1%nat ->
  (Z.to_nat w <= fuel)%nat ->
  exists row,
    Park.at_height fuel (Park.init w fol) h = Ok row
    /\ len row = if 5 <? h then w else w - 1.
Proof.
  intros Heven Hw Hfol Hf. apply Z.even_spec in Heven as [j Hj].
  rewrite park_row by (cbn; lia). cbn [Park.width Park.fol Park.init].
  cbv zeta. eexists. split; [reflexivity|].
  assert (Hbar : len "|" = 1) by reflexivity.
  assert (Hglyph : len fol = 1) by (unfold len; rewrite Hfol; lia).
  destruct (5 <? h); [apply len_spaces; lia|].
  destruct (2 >=? h); [|destruct (h =? 3); [|destruct (h =? 4)]];
    rewrite len_band by (Z.div_mod_to_equations; lia);
    rewrite ?Hbar, ?Hglyph; Z.div_mod_to_equations; lia.
Qed.

Lemma even_park_rows_short_witness :
  Z.even 6 = true /\ 6 <= 6 /\ String.length "*" = 1%nat
  /\ (Z.to_nat 6 <= 6)%nat
  /\ exists row,
      Park.at_height 6 (Park.init 6 "*") 4 = Ok row /\ len row = 5.
Proof.
  split; [reflexivity|]. split; [lia|]. split; [reflexivity|].
  split; [simpl; lia|].
  apply (even_park_rows_short 6 6 "*" 4); [reflexivity | lia | reflexivity|].
  simpl; lia.
Defined.



